(** * Option resolution of the Bitrise "run build" GitHub action

    A shallow embedding of [src/bitrise/options.ts]: [createBuildOptions]
    and its helpers [transformBasicEvent], [transformPullRequestEvent],
    [processOverrides], [getRepositoryURL], [getPrReadyState] and
    [prepareEnvironmentVariables].

    - The [Record<string, any>] objects that the code builds and spreads are
      finite maps from keys to JS values ([gmap string value]); an object
      spread [{...a, ...b}] is the left-biased union [b ∪ a], and reading a
      missing key gives [undefined] ([get]).
    - [core.setFailed] and [core.warning] do not throw: they only record a
      message. They are modelled as a log threaded through a small state
      monad [M]; execution goes on after them. [core.info] lines are not
      modelled (they only print).
    - The GitHub context ([github.context]), the action inputs
      ([core.getInput]/[core.getBooleanInput]) and [process.env] become
      explicit arguments. *)

From stdpp Require Import base gmap strings list fin_maps pretty.
From Stdlib Require Import Ascii.

Open Scope string_scope.
#[local] Set Warnings "-register-all".

(* ------------------------------------------------------------------ *)
(** ** JS values and objects *)

Inductive value :=
| VUndef
| VNull
| VBool (b : bool)
| VNum (z : Z)
| VStr (s : string)
| VList (l : list value)
| VObj (fields : list (string * value)).

Abbreviation obj := (gmap string value).

(** Property access: a missing key reads as [undefined]. *)
Definition get (o : obj) (k : string) : value :=
  match o !! k with Some v => v | None => VUndef end.

(** [o?.k] on a possibly [null] object. *)
Definition oget (o : option obj) (k : string) : value :=
  match o with Some o => get o k | None => VUndef end.

(** A field is set when it holds something other than [undefined]. *)
Definition defined (v : value) : bool :=
  match v with VUndef => false | _ => true end.

Definition is_set (o : obj) (k : string) : bool := defined (get o k).

(** JS truthiness. *)
Definition truthy (v : value) : bool :=
  match v with
  | VUndef | VNull => false
  | VBool b => b
  | VNum z => negb (Z.eqb z 0)
  | VStr s => negb (String.eqb s "")
  | VList _ | VObj _ => true
  end.

Definition truthy_s (s : string) : bool := negb (String.eqb s "").

(** Strict equality [===] on primitives; arrays and objects are compared
    by reference, and two objects built separately are never equal. *)
Definition strict_eq (v w : value) : bool :=
  match v, w with
  | VUndef, VUndef | VNull, VNull => true
  | VBool a, VBool b => Bool.eqb a b
  | VNum a, VNum b => Z.eqb a b
  | VStr a, VStr b => String.eqb a b
  | _, _ => false
  end.

Definition of_opt_str (o : option string) : value :=
  match o with Some s => VStr s | None => VUndef end.

(** [s.startsWith(p)] and [s.slice(n)] *)
Definition startsWith (s p : string) : bool := String.prefix p s.
Definition slice (s : string) (n : nat) : string :=
  String.substring n (String.length s - n) s.

(* ------------------------------------------------------------------ *)
(** ** Effects: the action log *)

Inductive log_entry :=
| Failed (msg : string)
| Warning (msg : string).

Definition M (A : Type) : Type := list log_entry -> A * list log_entry.

Definition ret {A} (a : A) : M A := fun l => (a, l).
Definition bind {A B} (m : M A) (k : A -> M B) : M B :=
  fun l => let '(a, l') := m l in k a l'.

Notation "x <- m ;; k" := (bind m (fun x => k))
  (at level 100, m at next level, right associativity).
Notation "m ;;; k" := (bind m (fun _ => k))
  (at level 100, right associativity).

Definition setFailed (msg : string) : M unit := fun l => (tt, (l ++ [Failed msg])%list).
Definition warning (msg : string) : M unit := fun l => (tt, (l ++ [Warning msg])%list).

Definition run {A} (m : M A) : A * list log_entry := m [].

Definition has_failed (l : list log_entry) : Prop :=
  exists msg, In (Failed msg) l.

(* ------------------------------------------------------------------ *)
(** ** The GitHub event context *)

Record Repo := {
  repo_private : bool;
  ssh_url : option string;
  clone_url : option string;
  owner_login : option string
}.

Record Commit := {
  message : value;
  added : value;
  removed : value;
  modified : value
}.

(** [pr.head] and [pr.base] *)
Record PRRef := {
  pr_sha : option string;
  pr_ref : option string;
  pr_repo : option Repo
}.

Record PullRequest := {
  number : N;
  title : string;
  body : option string;
  mergeable : option bool;       (* boolean | null *)
  draft : bool;
  action : option string;
  head : option PRRef;
  base : option PRRef;
  user_login : option string;
  diff_url : option string
}.

Record Payload := {
  deleted : bool;
  commits : option (list Commit);
  head_commit : option Commit;
  repository : option Repo;
  pull_request : option PullRequest
}.

(** [github.context] *)
Record Context := {
  ctx_ref : string;
  ctx_sha : string;
  payload : option Payload
}.

(** The action inputs read through [core.getInput]. *)
Record Inputs := {
  in_workflow : string;              (* bitrise-workflow *)
  in_pipeline : string;              (* bitrise-pipeline *)
  in_listen : bool;                  (* listen *)
  in_branch_override : string;       (* branch-override *)
  in_commit_override : string;       (* commit-override *)
  in_skip_git_status_report : bool;  (* skip-git-status-report *)
  in_env_vars : string               (* env-vars-for-bitrise *)
}.

(** [BitriseAppDetails]: only [repo_url] is read. *)
Record AppDetails := { repo_url : option string }.

Definition app_repo_url (app : option AppDetails) : option string :=
  match app with
  | Some a => match repo_url a with
              | Some u => if truthy_s u then Some u else None
              | None => None
              end
  | None => None
  end.

(** [BitriseEnvironment] *)
Record BitriseEnvironment := {
  mapped_to : string;
  env_value : string;
  is_expand : bool
}.

Definition env_to_value (e : BitriseEnvironment) : value :=
  VObj [("mapped_to", VStr (mapped_to e)); ("value", VStr (env_value e));
        ("is_expand", VBool (is_expand e))].

(* ------------------------------------------------------------------ *)
(** ** String helpers used by [prepareEnvironmentVariables] *)

(** [s.split(',')]: always at least one piece, as in JS. *)
Fixpoint split_comma (s : string) : list string :=
  match s with
  | EmptyString => [""]
  | String c s' =>
      if Ascii.eqb c "," then "" :: split_comma s'
      else match split_comma s' with
           | x :: xs => String c x :: xs
           | [] => [String c ""]
           end
  end.

(** The ASCII part of the whitespace removed by [String.prototype.trim]. *)
Definition is_ws (c : ascii) : bool :=
  let n := nat_of_ascii c in (Nat.eqb n 32 || (Nat.leb 9 n && Nat.leb n 13))%bool.

Fixpoint drop_ws (l : list ascii) : list ascii :=
  match l with
  | c :: l' => if is_ws c then drop_ws l' else l
  | [] => []
  end.

Definition trim (s : string) : string :=
  String.string_of_list_ascii
    (rev (drop_ws (rev (drop_ws (String.list_ascii_of_string s))))).

(* ------------------------------------------------------------------ *)
(** ** The transforms *)

Definition getRepositoryURL (repoInfoModel : option Repo) : value :=
  match repoInfoModel with
  | Some r => if repo_private r then of_opt_str (ssh_url r) else of_opt_str (clone_url r)
  | None => VUndef
  end.

Definition getPrReadyState (pr : PullRequest) : string :=
  if decide (action pr = Some "ready_for_review") then "converted_to_ready_for_review"
  else if draft pr then "draft"
  else "ready_for_review".

Definition commit_paths_filter (c : Commit) : value :=
  VObj [("added", added c); ("removed", removed c); ("modified", modified c)].

Definition msg_deleted := "this is a 'Deleted' event, no build can be started".

Definition transformBasicEvent (ctx : Context) (p : Payload) : M obj :=
  if deleted p then setFailed msg_deleted ;;; ret ∅
  else
    let cs := match commits p with
              | Some cs => cs
              | None => match head_commit p with Some c => [c] | None => [] end
              end in
    let ref := ctx_ref ctx in
    let '(options, commitMessages, commitPaths) :=
      if startsWith ref "refs/heads/" then
        ({[ "branch" := VStr (slice ref 11) ]} : obj,
         map message cs, map commit_paths_filter cs)
      else if startsWith ref "refs/tags/" then
        ({[ "tag" := VStr (slice ref 10) ]}, [], [])
      else (∅, [], []) in
    ret (<[ "base_repository_url" := getRepositoryURL (repository p) ]>
         (<[ "commit_paths" := VList commitPaths ]>
          (<[ "commit_messages" := VList commitMessages ]>
           (<[ "commit_message" := match head_commit p with
                                   | Some c => message c | None => VUndef end ]>
            (<[ "commit_hash" := VStr (ctx_sha ctx) ]> options))))).

Definition nl : string := String (ascii_of_nat 10) EmptyString.

Definition msg_not_mergeable := "Pull Request is not mergeable".

Definition prref_sha (r : option PRRef) : value :=
  match r with Some r => of_opt_str (pr_sha r) | None => VUndef end.
Definition prref_ref (r : option PRRef) : value :=
  match r with Some r => of_opt_str (pr_ref r) | None => VUndef end.
Definition prref_repo (r : option PRRef) : option Repo :=
  match r with Some r => pr_repo r | None => None end.
Definition repo_owner (r : option Repo) : value :=
  match r with Some r => of_opt_str (owner_login r) | None => VUndef end.

Definition transformPullRequestEvent (pr : PullRequest) : M obj :=
  let prNumber := number pr in
  let unverified := "pull/" +:+ pretty prNumber +:+ "/merge" in
  let options : obj := {[ "pull_request_unverified_merge_branch" := VStr unverified ]} in
  let mergeRefUpToDate := match mergeable pr with Some _ => true | None => false end in
  let options := if mergeRefUpToDate
                 then <[ "pull_request_merge_branch" := VStr unverified ]> options
                 else options in
  if mergeRefUpToDate && bool_decide (mergeable pr = Some false) then
    setFailed msg_not_mergeable ;;; ret ∅
  else
    let commitMsg := match body pr with
                     | Some b => if truthy_s b then title pr +:+ nl +:+ nl +:+ b else title pr
                     | None => title pr
                     end in
    ret (<[ "pull_request_ready_state" := VStr (getPrReadyState pr) ]>
         (<[ "diff_url" := of_opt_str (diff_url pr) ]>
          (<[ "pull_request_author" := of_opt_str (user_login pr) ]>
           (<[ "pull_request_head_branch" := VStr ("pull/" +:+ pretty prNumber +:+ "/head") ]>
            (<[ "base_repository_url" := getRepositoryURL (prref_repo (base pr)) ]>
             (<[ "pull_request_repository_url" := getRepositoryURL (prref_repo (head pr)) ]>
              (<[ "head_repository_url" := getRepositoryURL (prref_repo (head pr)) ]>
               (<[ "pull_request_id" := VNum (Z.of_N prNumber) ]>
                (<[ "branch_dest_repo_owner" := repo_owner (prref_repo (base pr)) ]>
                 (<[ "branch_dest" := prref_ref (base pr) ]>
                  (<[ "branch_repo_owner" := repo_owner (prref_repo (head pr)) ]>
                   (<[ "branch" := prref_ref (head pr) ]>
                    (<[ "commit_message" := VStr commitMsg ]>
                     (<[ "commit_hash" := prref_sha (head pr) ]> options)))))))))))))).

(** [prepareEnvironmentVariables], with the input [env-vars-for-bitrise]
    and the entries of [process.env] (in enumeration order) as arguments. *)
Definition envPassThrough (input : string) : list string :=
  filter (fun i => i <> "") (map trim (split_comma input)).

Definition prepareEnvironmentVariables (input : string)
    (process_env : list (string * option string)) : list BitriseEnvironment :=
  let pass := envPassThrough input in
  map (fun '(k, v) => {| mapped_to := k;
                         env_value := match v with Some s => s | None => "" end;
                         is_expand := false |})
      (filter (fun '(k, _) => k ∈ pass) process_env).

(* ------------------------------------------------------------------ *)
(** ** Overrides and the entry point *)

Section Resolver.

(** [urlsReferTheSameGitHubRepo] from [../utils], which is not part of the
    sources: every result below holds for any such comparison. *)
Variable urlsReferTheSameGitHubRepo : string -> value -> bool.

Definition msg_token := "It is recommended to use bitrise-token with overrides options.".

(** [processOverrides] reassigns [branchOptions] four times; each step is
    one definition below, named after what it does. *)
Definition override_seed (appDetails : option AppDetails) : obj :=
  match app_repo_url appDetails with
  | Some u => {[ "base_repository_url" := VStr u ]}
  | None => ∅
  end.

Definition override_parse (branchOverride : string) (branchOptions : obj) : obj :=
  if startsWith branchOverride "refs/heads/" then
    <[ "branch" := VStr (slice branchOverride 11) ]> branchOptions
  else if startsWith branchOverride "refs/tags/" then
    <[ "tag" := VStr (slice branchOverride 10) ]> branchOptions
  else if truthy_s branchOverride then
    <[ "branch" := VStr branchOverride ]> branchOptions
  else branchOptions.

Definition override_collapse (appDetails : option AppDetails)
    (defaultBranchOptions : option obj) (branchOverride : string)
    (branchOptions : obj) : obj :=
  if truthy_s branchOverride &&
     ((truthy (get branchOptions "branch") &&
       strict_eq (get branchOptions "branch") (oget defaultBranchOptions "branch")) ||
      (truthy (get branchOptions "tag") &&
       strict_eq (get branchOptions "tag") (oget defaultBranchOptions "tag")))
  then
    match app_repo_url appDetails with
    | Some u =>
        if urlsReferTheSameGitHubRepo u (oget defaultBranchOptions "base_repository_url")
        then (* [{...branchOptions, ...defaultBranchOptions}] *)
          match defaultBranchOptions with
          | Some d => d ∪ branchOptions
          | None => branchOptions
          end
        else branchOptions
    | None => branchOptions
    end
  else branchOptions.

Definition override_narrow (defaultBranchOptions : option obj)
    (commitOverride : string) (branchOptions : obj) : obj :=
  if truthy_s commitOverride &&
     negb (strict_eq (VStr commitOverride) (oget defaultBranchOptions "commit_hash"))
  then
    <[ "base_repository_url" := get branchOptions "base_repository_url" ]>
    (<[ "commit_hash" := VStr commitOverride ]>
     (<[ "tag" := get branchOptions "tag" ]>
      {[ "branch" := get branchOptions "branch" ]}))
  else branchOptions.

Definition processOverrides (appDetails : option AppDetails)
    (defaultBranchOptions : option obj)
    (branchOverride commitOverride : string) : M obj :=
  (if appDetails then ret tt else warning msg_token) ;;;
  ret (override_narrow defaultBranchOptions commitOverride
        (override_collapse appDetails defaultBranchOptions branchOverride
          (override_parse branchOverride (override_seed appDetails)))).

Definition msg_missing := "Either bitrise-workflow or bitrise-pipeline must be provided".
Definition msg_both := "Cannot specify both bitrise-workflow and bitrise-pipeline".
Definition msg_listen := "Listen option is not supported with bitrise-pipeline".
Definition msg_no_payload := "No payload found in the context.".
(** The warning text interpolates the two URLs; only its first words are kept. *)
Definition msg_repo_mismatch := "Bitrise App's repository url does not match current repository url".

Definition draft_env : BitriseEnvironment :=
  {| mapped_to := "GITHUB_PR_IS_DRAFT"; env_value := "true"; is_expand := false |}.

(** The returned literal
    [{...options, workflow_id, pipeline_id, skip_git_status_report, environments}]. *)
Definition with_top_level (inp : Inputs) (environments : list BitriseEnvironment)
    (options : obj) : obj :=
  let workflow := in_workflow inp in
  let pipeline := in_pipeline inp in
  <[ "environments" := VList (map env_to_value environments) ]>
  (<[ "skip_git_status_report" := VBool (in_skip_git_status_report inp) ]>
   (<[ "pipeline_id" := if truthy_s pipeline then VStr pipeline else VUndef ]>
    (<[ "workflow_id" := if truthy_s workflow then VStr workflow else VUndef ]>
     options))).

Definition createBuildOptions (appDetails : option AppDetails) (inp : Inputs)
    (ctx : Context) (process_env : list (string * option string)) : M obj :=
  let workflow := in_workflow inp in
  let pipeline := in_pipeline inp in
  let listen := in_listen inp in
  if negb (truthy_s workflow) && negb (truthy_s pipeline) then
    setFailed msg_missing ;;; ret ∅
  else if truthy_s workflow && truthy_s pipeline then
    setFailed msg_both ;;; ret ∅
  else if truthy_s pipeline && listen then
    setFailed msg_listen ;;; ret ∅
  else
    let environments := prepareEnvironmentVariables (in_env_vars inp) process_env in
    defaultBranchOptions <- (match payload ctx with
                             | Some p => d <- transformBasicEvent ctx p ;; ret (Some d)
                             | None => ret None
                             end) ;;
    let branchOverride := in_branch_override inp in
    let commitOverride := in_commit_override inp in
    resolved <- (if truthy_s branchOverride || truthy_s commitOverride then
                   o <- processOverrides appDetails defaultBranchOptions
                          branchOverride commitOverride ;;
                   ret (Some (o, environments))
                 else match match payload ctx with Some p => pull_request p | None => None end with
                 | Some pr =>
                     o <- transformPullRequestEvent pr ;;
                     ret (Some (o, if draft pr then (environments ++ [draft_env])%list
                                   else environments))
                 | None =>
                     match defaultBranchOptions with
                     | None => setFailed msg_no_payload ;;; ret None
                     | Some d => ret (Some (d, environments))
                     end
                 end) ;;
    match resolved with
    | None => ret ∅
    | Some (options, environments) =>
        (match app_repo_url appDetails with
         | Some u => if urlsReferTheSameGitHubRepo u (get options "base_repository_url")
                     then ret tt else warning msg_repo_mismatch
         | None => ret tt
         end) ;;;
        ret (with_top_level inp environments options)
    end.

End Resolver.

(* ------------------------------------------------------------------ *)
(** ** A concrete repository-identity comparison *)

Definition lower (c : ascii) : ascii :=
  let n := nat_of_ascii c in
  if (Nat.leb 65 n && Nat.leb n 90)%bool then ascii_of_nat (n + 32) else c.

Definition strip_prefix (p s : string) : string :=
  if String.prefix p s then slice s (String.length p) else s.

Definition strip_suffix (x s : string) : string :=
  let n := String.length s in
  let k := String.length x in
  if (Nat.leb k n && String.eqb (String.substring (n - k) k s) x)%bool
  then String.substring 0 (n - k) s else s.

Definition normalize_repo_url (u : string) : string :=
  let u := String.string_of_list_ascii (map lower (String.list_ascii_of_string u)) in
  let u := strip_prefix "https://github.com/" u in
  let u := strip_prefix "http://github.com/" u in
  let u := strip_prefix "ssh://git@github.com/" u in
  let u := strip_prefix "git@github.com:" u in
  strip_suffix ".git" (strip_suffix "/" u).

(** Modelled from the spec: [urlsReferTheSameGitHubRepo] of [../utils]
    (absent from the sources). Two repository URLs refer to the same
    repository when their owner/name paths agree, whatever the scheme
    (SSH or HTTPS), the host's case or a trailing [.git]; an [undefined]
    URL refers to no repository. *)
Definition urlsReferTheSameGitHubRepo_model (a : string) (b : value) : bool :=
  match b with
  | VStr b => String.eqb (normalize_repo_url a) (normalize_repo_url b)
  | _ => false
  end.

(* ------------------------------------------------------------------ *)
(** ** Fixtures *)

Definition repo_or : Repo :=
  {| repo_private := false; ssh_url := Some "git@github.com:o/r.git";
     clone_url := Some "https://github.com/o/r.git"; owner_login := Some "o" |}.

Definition commit1 : Commit :=
  {| message := VStr "fix"; added := VList [VStr "a.txt"]; removed := VList [];
     modified := VList [] |}.

Definition push_payload : Payload :=
  {| deleted := false; commits := Some [commit1]; head_commit := Some commit1;
     repository := Some repo_or; pull_request := None |}.

Definition ctx_of (ref : string) (p : Payload) : Context :=
  {| ctx_ref := ref; ctx_sha := "abc"; payload := Some p |}.

Definition inputs_wf (bo co : string) : Inputs :=
  {| in_workflow := "wf"; in_pipeline := ""; in_listen := false;
     in_branch_override := bo; in_commit_override := co;
     in_skip_git_status_report := false; in_env_vars := "" |}.

Definition app_or : option AppDetails := Some {| repo_url := Some "https://github.com/O/r" |}.

Definition pr42 (m : option bool) : PullRequest :=
  {| number := 42; title := "T"; body := None; mergeable := m; draft := false;
     action := None;
     head := Some {| pr_sha := Some "h"; pr_ref := Some "feature"; pr_repo := Some repo_or |};
     base := Some {| pr_sha := Some "b"; pr_ref := Some "main"; pr_repo := Some repo_or |};
     user_login := Some "u"; diff_url := None |}.

Definition pr_payload (m : option bool) : Payload :=
  {| deleted := false; commits := None; head_commit := None;
     repository := Some repo_or; pull_request := Some (pr42 m) |}.

Definition resolve (app : option AppDetails) (inp : Inputs) (ctx : Context)
    (env : list (string * option string)) : obj * list log_entry :=
  run (createBuildOptions urlsReferTheSameGitHubRepo_model app inp ctx env).

Definition deleted_payload : Payload :=
  {| deleted := true; commits := Some [commit1]; head_commit := Some commit1;
     repository := Some repo_or; pull_request := None |}.

(* ------------------------------------------------------------------ *)
(** ** Vocabulary of the statements *)

(** The three selection checks at the top of [createBuildOptions] pass. *)
Definition selection_ok (inp : Inputs) : bool :=
  let w := truthy_s (in_workflow inp) in
  let p := truthy_s (in_pipeline inp) in
  negb (negb w && negb p) && negb (w && p) && negb (p && in_listen inp).

(** The key and name a branch override resolves to. *)
Definition override_target (bo : string) : string * string :=
  if startsWith bo "refs/heads/" then ("branch", slice bo 11)
  else if startsWith bo "refs/tags/" then ("tag", slice bo 10)
  else ("branch", bo).

Definition key_excl (o : obj) : Prop := o !! "branch" = None \/ o !! "tag" = None.

Definition opt_key_excl (d : option obj) : Prop :=
  match d with Some d => key_excl d | None => True end.

Definition basic_keys : list string :=
  ["branch"; "tag"; "commit_hash"; "commit_message"; "commit_messages";
   "commit_paths"; "base_repository_url"].

(** The keys that only [transformPullRequestEvent] writes. *)
Definition pull_request_keys : list string :=
  ["pull_request_unverified_merge_branch"; "pull_request_merge_branch";
   "branch_repo_owner"; "branch_dest"; "branch_dest_repo_owner"; "pull_request_id";
   "head_repository_url"; "pull_request_repository_url"; "pull_request_head_branch";
   "pull_request_author"; "diff_url"; "pull_request_ready_state"].

(** The key an override does not write: [tag] for [branch], else [branch]. *)
Definition other_key (k : string) : string := if String.eqb k "branch" then "tag" else "branch".


Ltac not_in_keys H :=
  repeat (apply not_elem_of_cons in H as [? H]).

(* ------------------------------------------------------------------ *)
(** ** Sample runs *)

Example ex_push_branch :
  get (fst (resolve None (inputs_wf "" "") (ctx_of "refs/heads/main" push_payload) []))
      "branch" = VStr "main".
Proof. vm_compute. reflexivity. Qed.

Example ex_pr_merge :
  get (fst (resolve None (inputs_wf "" "") (ctx_of "refs/pull/42/merge" (pr_payload (Some true))) []))
      "pull_request_merge_branch" = VStr "pull/42/merge".
Proof. vm_compute. reflexivity. Qed.

Example ex_env :
  prepareEnvironmentVariables "A, C" [("A", Some "1"); ("B", Some "2")] =
  [{| mapped_to := "A"; env_value := "1"; is_expand := false |}].
Proof. vm_compute. reflexivity. Qed.

Example ex_same_repo :
  urlsReferTheSameGitHubRepo_model "https://github.com/O/r" (VStr "git@github.com:o/r.git") = true.
Proof. vm_compute. reflexivity. Qed.

(* ------------------------------------------------------------------ *)
(** ** The log is only appended to *)

Lemma transformBasicEvent_run ctx p l :
  transformBasicEvent ctx p l =
  (fst (transformBasicEvent ctx p []),
   (l ++ if deleted p then [Failed msg_deleted] else [])%list).
Proof.
  unfold transformBasicEvent, bind, ret, setFailed.
  destruct (deleted p); simpl; [done|].
  rewrite app_nil_r.
  destruct (startsWith _ "refs/heads/"); [done|].
  by destruct (startsWith _ "refs/tags/").
Qed.

Lemma transformPullRequestEvent_run pr l :
  transformPullRequestEvent pr l =
  (fst (transformPullRequestEvent pr []),
   (l ++ if bool_decide (mergeable pr = Some false) then [Failed msg_not_mergeable]
         else [])%list).
Proof.
  unfold transformPullRequestEvent, bind, ret, setFailed.
  destruct (mergeable pr) as [[]|]; simpl; try done; by rewrite app_nil_r.
Qed.

Lemma processOverrides_run s app d bo co l :
  processOverrides s app d bo co l =
  (fst (processOverrides s app d bo co []),
   (l ++ if app then [] else [Warning msg_token])%list).
Proof.
  unfold processOverrides, bind, ret, warning.
  destruct app; simpl; [rewrite app_nil_r|]; reflexivity.
Qed.

(** The value computed by [createBuildOptions], logs aside. *)
Lemma createBuildOptions_fst s app inp ctx env :
  fst (run (createBuildOptions s app inp ctx env)) =
  if selection_ok inp then
    let d := fmap (fun p => fst (transformBasicEvent ctx p [])) (payload ctx) in
    let envs := prepareEnvironmentVariables (in_env_vars inp) env in
    if truthy_s (in_branch_override inp) || truthy_s (in_commit_override inp) then
      with_top_level inp envs
        (fst (processOverrides s app d (in_branch_override inp) (in_commit_override inp) []))
    else match payload ctx ≫= pull_request with
         | Some pr => with_top_level inp (if draft pr then (envs ++ [draft_env])%list else envs)
                        (fst (transformPullRequestEvent pr []))
         | None => match d with Some d => with_top_level inp envs d | None => ∅ end
         end
  else ∅.
Proof.
  unfold createBuildOptions, run, bind, ret, setFailed, warning, selection_ok.
  destruct (truthy_s (in_workflow inp)), (truthy_s (in_pipeline inp)), (in_listen inp);
    simpl; try done.
  all: destruct (payload ctx) as [p|]; simpl; [rewrite transformBasicEvent_run; simpl|].
  all: destruct (truthy_s (in_branch_override inp) || truthy_s (in_commit_override inp)); simpl.
  all: try (rewrite processOverrides_run; simpl).
  all: try (destruct (pull_request p) as [pr|]; simpl).
  all: try (rewrite transformPullRequestEvent_run; simpl).
  all: repeat case_match; simpl; done.
Qed.

(* ------------------------------------------------------------------ *)
(** ** String facts *)

Lemma prefix_app (p b : string) : String.prefix p (p +:+ b) = true.
Proof.
  induction p as [|c p IH]; simpl; [by destruct b|].
  destruct (ascii_dec c c); [done|congruence].
Qed.

Lemma substring_all (s : string) : String.substring 0 (String.length s) s = s.
Proof. induction s as [|c s IH]; simpl; [done|by rewrite IH]. Qed.

Lemma slice_app (p b : string) : slice (p +:+ b) (String.length p) = b.
Proof.
  induction p as [|c p IH]; unfold slice in *; simpl.
  - rewrite Nat.sub_0_r. apply substring_all.
  - exact IH.
Qed.

(* ------------------------------------------------------------------ *)
(** ** The base-event transform *)

Lemma transformBasicEvent_deleted ctx p :
  deleted p = true -> fst (transformBasicEvent ctx p []) = ∅.
Proof. intros H. unfold transformBasicEvent. by rewrite H. Qed.

(** At most one of the keys [branch] and [tag] is present. *)
Lemma transformBasicEvent_excl ctx p :
  let d := fst (transformBasicEvent ctx p []) in
  d !! "branch" = None \/ d !! "tag" = None.
Proof.
  unfold transformBasicEvent. destruct (deleted p); simpl; [by left|].
  destruct (startsWith _ "refs/heads/"); simpl; [right|];
    [|destruct (startsWith _ "refs/tags/"); simpl; [left|left]];
    by simplify_map_eq.
Qed.

(** The keys always present in a non-error result. *)
Lemma transformBasicEvent_keys ctx p :
  deleted p = false ->
  let d := fst (transformBasicEvent ctx p []) in
  d !! "commit_hash" = Some (VStr (ctx_sha ctx)) /\
  d !! "base_repository_url" = Some (getRepositoryURL (repository p)).
Proof.
  intros H. unfold transformBasicEvent. rewrite H. simpl.
  destruct (startsWith _ "refs/heads/"); simpl;
    [|destruct (startsWith _ "refs/tags/"); simpl]; by simplify_map_eq.
Qed.

(** C10: every non-error result of the base-event transform holds
    [commit_messages] and [commit_paths] as lists (empty ones unless the
    ref is under [refs/heads/]), and [commit_message] reads as the head
    commit's message, or [undefined] when the payload has no head commit. *)
Theorem basic_event_commit_lists ctx p :
  deleted p = false ->
  let d := fst (transformBasicEvent ctx p []) in
  (exists ms, d !! "commit_messages" = Some (VList ms)) /\
  (exists ps, d !! "commit_paths" = Some (VList ps)) /\
  (startsWith (ctx_ref ctx) "refs/heads/" = false ->
     d !! "commit_messages" = Some (VList []) /\ d !! "commit_paths" = Some (VList [])) /\
  get d "commit_message" = match head_commit p with Some c => message c | None => VUndef end.
Proof.
  intros H. unfold transformBasicEvent, get. rewrite H. simpl.
  destruct (startsWith _ "refs/heads/") eqn:Eh; simpl;
    [|destruct (startsWith _ "refs/tags/"); simpl];
    simplify_map_eq; (split; [eexists; done|]); (split; [eexists; done|]);
    (split; [intros; try discriminate; done|]);
    by destruct (head_commit p).
Qed.

(** C8: with no override and a payload that is neither a pull request
    nor a deletion, a ref [refs/heads/<b>] (e.g. [refs/heads/main]) gives
    [branch = b] and no [tag]; a ref [refs/tags/<t>] (e.g. [refs/tags/v1.0])
    gives [tag = t] and no [branch]. *)
Theorem push_ref_branch_or_tag s app inp ctx p env :
  selection_ok inp = true ->
  payload ctx = Some p -> pull_request p = None -> deleted p = false ->
  in_branch_override inp = "" -> in_commit_override inp = "" ->
  let out := fst (run (createBuildOptions s app inp ctx env)) in
  (forall b, ctx_ref ctx = "refs/heads/" +:+ b ->
     get out "branch" = VStr b /\ get out "tag" = VUndef) /\
  (forall t, ctx_ref ctx = "refs/tags/" +:+ t ->
     get out "tag" = VStr t /\ get out "branch" = VUndef).
Proof.
  intros Hsel Hp Hpr Hdel Hbo Hco out. subst out.
  rewrite createBuildOptions_fst, Hsel, Hp, Hbo, Hco. simpl. rewrite Hpr.
  split; intros x Href.
  - assert (E1 : startsWith (ctx_ref ctx) "refs/heads/" = true)
      by (rewrite Href; apply prefix_app).
    assert (E2 : slice (ctx_ref ctx) 11 = x)
      by (rewrite Href; apply (slice_app "refs/heads/" x)).
    unfold transformBasicEvent. rewrite Hdel, E1, E2. simpl.
    unfold with_top_level, get. by simplify_map_eq.
  - assert (E1 : startsWith (ctx_ref ctx) "refs/heads/" = false)
      by (rewrite Href; reflexivity).
    assert (E3 : startsWith (ctx_ref ctx) "refs/tags/" = true)
      by (rewrite Href; apply prefix_app).
    assert (E2 : slice (ctx_ref ctx) 10 = x)
      by (rewrite Href; apply (slice_app "refs/tags/" x)).
    unfold transformBasicEvent. rewrite Hdel, E1, E3, E2. simpl.
    unfold with_top_level, get. by simplify_map_eq.
Qed.

(** C10 witness: a push to a tag. *)
Lemma basic_event_commit_lists_witness :
  let d := fst (transformBasicEvent (ctx_of "refs/tags/v1.0" push_payload) push_payload []) in
  (exists ms, d !! "commit_messages" = Some (VList ms)) /\
  (exists ps, d !! "commit_paths" = Some (VList ps)) /\
  (startsWith "refs/tags/v1.0" "refs/heads/" = false ->
     d !! "commit_messages" = Some (VList []) /\ d !! "commit_paths" = Some (VList [])) /\
  get d "commit_message" = VStr "fix".
Proof.
  exact (basic_event_commit_lists (ctx_of "refs/tags/v1.0" push_payload) push_payload eq_refl).
Defined.

(** C8 witness: a push to [refs/heads/main]. *)
Lemma push_ref_branch_or_tag_witness :
  let out := fst (resolve None (inputs_wf "" "") (ctx_of "refs/heads/main" push_payload) []) in
  get out "branch" = VStr "main" /\ get out "tag" = VUndef.
Proof.
  apply (proj1 (push_ref_branch_or_tag urlsReferTheSameGitHubRepo_model None (inputs_wf "" "")
           (ctx_of "refs/heads/main" push_payload) push_payload []
           eq_refl eq_refl eq_refl eq_refl eq_refl eq_refl) "main").
  reflexivity.
Defined.

(* ------------------------------------------------------------------ *)
(** ** [branch] and [tag] exclusion through the override steps *)

Lemma get_defined_lookup (o : obj) k : get o k <> VUndef -> o !! k <> None.
Proof. unfold get. by destruct (o !! k). Qed.

Lemma truthy_defined v : truthy v = true -> v <> VUndef.
Proof. by destruct v. Qed.

Lemma strict_eq_defined v w : strict_eq v w = true -> v <> VUndef -> w <> VUndef.
Proof. by destruct v, w. Qed.

Lemma override_seed_keys app :
  override_seed app !! "branch" = None /\ override_seed app !! "tag" = None.
Proof. unfold override_seed. destruct (app_repo_url app); by simplify_map_eq. Qed.

Lemma override_parse_excl bo (b : obj) :
  b !! "branch" = None -> b !! "tag" = None -> key_excl (override_parse bo b).
Proof.
  intros Hb Ht. unfold override_parse, key_excl.
  repeat case_match; simplify_map_eq; auto.
Qed.

Lemma override_collapse_excl s app d bo b :
  key_excl b -> opt_key_excl d -> key_excl (override_collapse s app d bo b).
Proof.
  intros Hb Hd. unfold override_collapse.
  destruct (truthy_s bo && _) eqn:C; [|done].
  destruct (app_repo_url app); [|done].
  destruct (s _ _); [|done].
  destruct d as [d|]; [|done]. simpl in *.
  apply andb_prop in C as [_ C]. unfold key_excl in *.
  rewrite !lookup_union_None.
  apply orb_prop in C as [C|C]; apply andb_prop in C as [C1 C2];
    pose proof (truthy_defined _ C1) as V;
    pose proof (strict_eq_defined _ _ C2 V) as W;
    apply get_defined_lookup in V, W.
  - right. destruct Hb, Hd; tauto.
  - left. destruct Hb, Hd; tauto.
Qed.

Lemma key_excl_get (o : obj) :
  key_excl o -> get o "branch" = VUndef \/ get o "tag" = VUndef.
Proof. unfold key_excl, get. intros [-> | ->]; auto. Qed.

Lemma override_narrow_excl d co b :
  key_excl b ->
  get (override_narrow d co b) "branch" = VUndef \/ get (override_narrow d co b) "tag" = VUndef.
Proof.
  intros Hb. unfold override_narrow. case_match; [|by apply key_excl_get].
  destruct (key_excl_get b Hb) as [E|E]; [left|right]; rewrite <- E;
    unfold get at 1; by simplify_map_eq.
Qed.

Lemma processOverrides_fst s app d bo co :
  fst (processOverrides s app d bo co []) =
  override_narrow d co (override_collapse s app d bo (override_parse bo (override_seed app))).
Proof. unfold processOverrides, bind, ret, warning. by destruct app. Qed.

Lemma with_top_level_lookup inp e (o : obj) k :
  k <> "environments" -> k <> "skip_git_status_report" -> k <> "pipeline_id" ->
  k <> "workflow_id" -> with_top_level inp e o !! k = o !! k.
Proof. intros. unfold with_top_level. by rewrite !lookup_insert_ne. Qed.

Lemma with_top_level_get inp e (o : obj) k :
  k <> "environments" -> k <> "skip_git_status_report" -> k <> "pipeline_id" ->
  k <> "workflow_id" -> get (with_top_level inp e o) k = get o k.
Proof. intros. unfold get. by rewrite with_top_level_lookup. Qed.

Lemma transformPullRequestEvent_no_tag pr :
  fst (transformPullRequestEvent pr []) !! "tag" = None.
Proof.
  unfold transformPullRequestEvent, bind, ret, setFailed.
  repeat case_match; simpl; by simplify_map_eq.
Qed.

(** C9: whatever the event, overrides and app details, the returned
    options never have both [branch] and [tag] set. *)
Theorem branch_tag_never_both s app inp ctx env :
  let out := fst (run (createBuildOptions s app inp ctx env)) in
  ~ (is_set out "branch" = true /\ is_set out "tag" = true).
Proof.
  intros out. subst out. rewrite createBuildOptions_fst.
  assert (G : forall o : obj, get o "branch" = VUndef \/ get o "tag" = VUndef ->
            ~ (is_set o "branch" = true /\ is_set o "tag" = true))
    by (unfold is_set; intros o [-> | ->]; simpl; intuition discriminate).
  apply G. clear G.
  destruct (selection_ok inp); [|by left].
  cbv zeta.
  assert (Hd : opt_key_excl (fmap (fun p => fst (transformBasicEvent ctx p [])) (payload ctx)))
    by (destruct (payload ctx); simpl; [apply transformBasicEvent_excl|done]).
  case_match.
  - rewrite !with_top_level_get by done.
    rewrite processOverrides_fst. apply override_narrow_excl.
    apply override_collapse_excl; [|done].
    destruct (override_seed_keys app). by apply override_parse_excl.
  - case_match.
    + rewrite !with_top_level_get by done. right.
      unfold get. by rewrite transformPullRequestEvent_no_tag.
    + destruct (payload ctx) as [p|]; simpl; [|by left].
      rewrite !with_top_level_get by done.
      apply key_excl_get, transformBasicEvent_excl.
Qed.

(* ------------------------------------------------------------------ *)
(** ** Workflow / pipeline selection *)

Lemma selection_failed_log s app inp ctx env :
  selection_ok inp = false ->
  fst (run (createBuildOptions s app inp ctx env)) = ∅ /\
  snd (run (createBuildOptions s app inp ctx env)) =
    [Failed (if negb (truthy_s (in_workflow inp)) && negb (truthy_s (in_pipeline inp))
             then msg_missing
             else if truthy_s (in_workflow inp) && truthy_s (in_pipeline inp)
             then msg_both else msg_listen)].
Proof.
  unfold selection_ok, createBuildOptions, run, bind, ret, setFailed.
  destruct (truthy_s (in_workflow inp)), (truthy_s (in_pipeline inp)), (in_listen inp);
    simpl; done.
Qed.

Lemma no_payload_log s app inp ctx env :
  selection_ok inp = true -> payload ctx = None ->
  truthy_s (in_branch_override inp) = false -> truthy_s (in_commit_override inp) = false ->
  In (Failed msg_no_payload) (snd (run (createBuildOptions s app inp ctx env))).
Proof.
  intros Hs Hp Hb Hc. revert Hs.
  unfold selection_ok, createBuildOptions, run, bind, ret, setFailed.
  rewrite Hp, Hb, Hc.
  destruct (truthy_s (in_workflow inp)), (truthy_s (in_pipeline inp)), (in_listen inp);
    simpl; intros; try discriminate; auto.
Qed.

Lemma with_top_level_selection inp e o :
  selection_ok inp = true ->
  xorb (is_set (with_top_level inp e o) "workflow_id")
       (is_set (with_top_level inp e o) "pipeline_id") = true.
Proof.
  unfold selection_ok, with_top_level, is_set, get. intros H.
  simplify_map_eq.
  destruct (truthy_s (in_workflow inp)), (truthy_s (in_pipeline inp)), (in_listen inp);
    simpl in *; done.
Qed.

(** C7: giving both a workflow and a pipeline, or neither, fails with
    only that configuration error and returns the empty object; every
    run that records no failure returns exactly one of [workflow_id] and
    [pipeline_id]. *)
Theorem workflow_pipeline_exclusive s app inp ctx env :
  let r := run (createBuildOptions s app inp ctx env) in
  (truthy_s (in_workflow inp) = truthy_s (in_pipeline inp) ->
     fst r = ∅ /\
     snd r = [Failed (if truthy_s (in_workflow inp) then msg_both else msg_missing)]) /\
  (~ has_failed (snd r) ->
     xorb (is_set (fst r) "workflow_id") (is_set (fst r) "pipeline_id") = true).
Proof.
  intros r. subst r. split.
  - intros E.
    assert (Hs : selection_ok inp = false)
      by (unfold selection_ok; rewrite E; by destruct (truthy_s (in_pipeline inp))).
    destruct (selection_failed_log s app inp ctx env Hs) as [H1 H2].
    rewrite H1, H2. rewrite E. by destruct (truthy_s (in_pipeline inp)).
  - intros NF. destruct (selection_ok inp) eqn:Hs.
    + rewrite createBuildOptions_fst, Hs. cbv zeta.
      case_match; [by apply with_top_level_selection|].
      case_match; [by apply with_top_level_selection|].
      destruct (payload ctx) eqn:Hp; simpl; [by apply with_top_level_selection|].
      exfalso. apply NF. exists msg_no_payload.
      apply orb_false_elim in H as [Hb Hc].
      by apply no_payload_log.
    + exfalso. apply NF.
      destruct (selection_failed_log s app inp ctx env Hs) as [_ ->].
      eexists. left. reflexivity.
Qed.

(* ------------------------------------------------------------------ *)
(** ** Environment passthrough *)

Lemma elem_of_map {A B} (f : A -> B) (l : list A) y :
  y ∈ map f l <-> exists x, y = f x /\ x ∈ l.
Proof.
  induction l as [|x l IH]; simpl.
  - split; [intros H; inversion H|intros (x & _ & H); inversion H].
  - rewrite elem_of_cons, IH. split.
    + intros [->|(z & -> & H)]; [exists x; split; [done|left]|exists z; split; [done|right; done]].
    + intros (z & -> & H). apply elem_of_cons in H as [->|H]; [by left|right; by exists z].
Qed.

Lemma prepare_names input (env : list (string * option string)) :
  map mapped_to (prepareEnvironmentVariables input env) =
  map fst (filter (fun '(k, _) => k ∈ envPassThrough input) env).
Proof.
  unfold prepareEnvironmentVariables.
  induction (filter _ env) as [|[k v] l IH]; simpl; [done|by f_equal].
Qed.

Lemma prepare_elem input (env : list (string * option string)) e :
  e ∈ prepareEnvironmentVariables input env <->
  exists v, (mapped_to e, v) ∈ env /\ mapped_to e ∈ envPassThrough input /\
            e = {| mapped_to := mapped_to e;
                   env_value := match v with Some s => s | None => "" end;
                   is_expand := false |}.
Proof.
  destruct e as [n val ex]. simpl.
  unfold prepareEnvironmentVariables.
  induction env as [|[k v] env IH]; simpl.
  - split; [intros H; inversion H|intros (v & H & _); inversion H].
  - rewrite filter_cons. case_decide.
    + simpl. rewrite elem_of_cons, IH. split.
      * intros [E|(w & H1 & H2 & H3)].
        -- injection E as -> -> ->. exists v. split; [left|]; done.
        -- exists w. split; [right|]; done.
      * intros (w & H1 & H2 & H3). apply elem_of_cons in H1 as [H1|H1].
        -- injection H1 as -> ->. left. done.
        -- right. by exists w.
    + rewrite IH. split.
      * intros (w & H1 & H2 & H3). exists w. split; [right|]; done.
      * intros (w & H1 & H2 & H3). apply elem_of_cons in H1 as [H1|H1].
        -- injection H1 as -> ->. done.
        -- by exists w.
Qed.

Lemma map_fst_filter_sublist (P : string * option string -> Prop)
    `{forall x, Decision (P x)} (env : list (string * option string)) :
  map fst (filter P env) `sublist_of` map fst env.
Proof.
  induction env as [|x env IH]; simpl; [done|].
  rewrite filter_cons. case_decide; simpl.
  - by apply sublist_skip.
  - by apply sublist_cons.
Qed.

Lemma map_fst_filter_elem (P : string * option string -> Prop)
    `{forall x, Decision (P x)} (env : list (string * option string)) n :
  n ∈ map fst (filter P env) <-> exists v, (n, v) ∈ env /\ P (n, v).
Proof.
  induction env as [|[k w] env IH]; simpl.
  - split; [intros H'; inversion H'|intros (v & H' & _); inversion H'].
  - rewrite filter_cons. case_decide; simpl.
    + rewrite elem_of_cons, IH. split.
      * intros [->|(v & H1 & H2)]; [exists w; split; [left|]; done|].
        exists v. split; [right|]; done.
      * intros (v & H1 & H2). apply elem_of_cons in H1 as [H1|H1].
        -- injection H1 as -> ->. by left.
        -- right. by exists v.
    + rewrite IH. split.
      * intros (v & H1 & H2). exists v. split; [right|]; done.
      * intros (v & H1 & H2). apply elem_of_cons in H1 as [H1|H1].
        -- injection H1 as -> ->. done.
        -- by exists v.
Qed.

(** C5: for process environment entries with distinct names, the
    passthrough keeps exactly the entries whose name is in the allow-list,
    one per name, in the environment's enumeration order, each with the
    entry's value (the empty string when unset) and [is_expand = false];
    allow-listed names absent from the environment give nothing. *)
Theorem env_passthrough_spec input (env : list (string * option string)) :
  NoDup (map fst env) ->
  let out := prepareEnvironmentVariables input env in
  (forall n, n ∈ map mapped_to out <-> n ∈ envPassThrough input /\ n ∈ map fst env) /\
  NoDup (map mapped_to out) /\
  map mapped_to out `sublist_of` map fst env /\
  (forall n v, (n, v) ∈ env -> n ∈ envPassThrough input ->
     {| mapped_to := n; env_value := match v with Some s => s | None => "" end;
        is_expand := false |} ∈ out) /\
  (forall e, e ∈ out ->
     is_expand e = false /\
     exists v, (mapped_to e, v) ∈ env /\
               env_value e = match v with Some s => s | None => "" end).
Proof.
  intros Hnd out. subst out. rewrite prepare_names.
  split; [|split; [|split; [|split]]].
  - intros n. rewrite map_fst_filter_elem. split.
    + intros (v & H1 & H2). split; [done|].
      apply elem_of_map. by exists (n, v).
    + intros [H1 H2]. apply elem_of_map in H2 as ([k v] & -> & H3).
      by exists v.
  - eapply sublist_NoDup; [exact Hnd|]. apply map_fst_filter_sublist.
  - apply map_fst_filter_sublist.
  - intros n v H1 H2. apply prepare_elem. simpl. by exists v.
  - intros e He. apply prepare_elem in He as (v & H1 & H2 & H3).
    rewrite H3. simpl. split; [done|]. by exists v.
Qed.

(** C5 witness: allow-list [A,C] against the entries [A=1, B=2]. *)
Lemma env_passthrough_spec_witness :
  NoDup (map fst [("A", Some "1"); ("B", Some "2")]) /\
  prepareEnvironmentVariables "A,C" [("A", Some "1"); ("B", Some "2")] =
    [{| mapped_to := "A"; env_value := "1"; is_expand := false |}] /\
  NoDup (map mapped_to (prepareEnvironmentVariables "A,C" [("A", Some "1"); ("B", Some "2")])).
Proof.
  assert (Hnd : NoDup (map fst [("A", Some "1"); ("B", Some "2")]))
    by (simpl; repeat constructor; set_solver).
  split; [exact Hnd|split; [vm_compute; reflexivity|]].
  exact (proj1 (proj2 (env_passthrough_spec "A,C" _ Hnd))).
Defined.

(* ------------------------------------------------------------------ *)
(** ** Pull requests *)

Lemma pr_path_fst s app inp ctx p pr env :
  selection_ok inp = true -> payload ctx = Some p -> pull_request p = Some pr ->
  in_branch_override inp = "" -> in_commit_override inp = "" ->
  fst (run (createBuildOptions s app inp ctx env)) =
  with_top_level inp
    (if draft pr
     then (prepareEnvironmentVariables (in_env_vars inp) env ++ [draft_env])%list
     else prepareEnvironmentVariables (in_env_vars inp) env)
    (fst (transformPullRequestEvent pr [])).
Proof.
  intros Hs Hp Hpr Hb Hc.
  rewrite createBuildOptions_fst, Hs, Hb, Hc, Hp. cbv zeta. simpl. by rewrite Hpr.
Qed.

Lemma pr_path_failed s app inp ctx p pr env :
  selection_ok inp = true -> payload ctx = Some p -> pull_request p = Some pr ->
  in_branch_override inp = "" -> in_commit_override inp = "" ->
  mergeable pr = Some false ->
  In (Failed msg_not_mergeable) (snd (run (createBuildOptions s app inp ctx env))).
Proof.
  intros Hs Hp Hpr Hb Hc Hm. revert Hs.
  unfold selection_ok, createBuildOptions, run, bind, ret, setFailed, warning.
  destruct (truthy_s (in_workflow inp)), (truthy_s (in_pipeline inp)), (in_listen inp);
    simpl; intros; try discriminate.
  all: rewrite Hp, transformBasicEvent_run, Hb, Hc; simpl; rewrite Hpr;
    rewrite transformPullRequestEvent_run, Hm; simpl.
  all: destruct (deleted p), (app_repo_url app) as [u|]; simpl;
    try destruct (s u _); simpl; destruct (draft pr); simpl; tauto.
Qed.

(** C2: on a pull-request event with no override,
    [pull_request_unverified_merge_branch] is [pull/<number>/merge] and
    [pull_request_merge_branch] is set (to the same value) exactly when
    [mergeable] is not [null]; when [mergeable] is [false] the run fails
    with [Pull Request is not mergeable]. *)
Theorem pr_merge_branches s app inp ctx p pr env :
  selection_ok inp = true -> payload ctx = Some p -> pull_request p = Some pr ->
  in_branch_override inp = "" -> in_commit_override inp = "" ->
  let r := run (createBuildOptions s app inp ctx env) in
  (mergeable pr <> Some false ->
     get (fst r) "pull_request_unverified_merge_branch" =
       VStr ("pull/" +:+ pretty (number pr) +:+ "/merge") /\
     (is_set (fst r) "pull_request_merge_branch" = true <-> mergeable pr <> None) /\
     (mergeable pr <> None ->
        get (fst r) "pull_request_merge_branch" =
          VStr ("pull/" +:+ pretty (number pr) +:+ "/merge"))) /\
  (mergeable pr = Some false -> In (Failed msg_not_mergeable) (snd r)).
Proof.
  intros Hs Hp Hpr Hb Hc r. subst r. split.
  - intros Hm. rewrite (pr_path_fst s app inp ctx p pr env Hs Hp Hpr Hb Hc).
    rewrite !with_top_level_get by done.
    unfold transformPullRequestEvent, bind, ret, is_set.
    destruct (mergeable pr) as [[]|] eqn:E; [|done|]; simpl;
      unfold get; simplify_map_eq; (split; [done|split]); naive_solver.
  - by apply (pr_path_failed s app inp ctx p pr env).
Qed.

(** C2 witness: pull request 42, mergeable. *)
Lemma pr_merge_branches_witness :
  let r := resolve None (inputs_wf "" "") (ctx_of "refs/pull/42/merge" (pr_payload (Some true))) [] in
  get (fst r) "pull_request_unverified_merge_branch" = VStr "pull/42/merge" /\
  get (fst r) "pull_request_merge_branch" = VStr "pull/42/merge".
Proof.
  destruct (proj1 (pr_merge_branches urlsReferTheSameGitHubRepo_model None (inputs_wf "" "")
             (ctx_of "refs/pull/42/merge" (pr_payload (Some true))) (pr_payload (Some true))
             (pr42 (Some true)) [] eq_refl eq_refl eq_refl eq_refl eq_refl)
             ltac:(discriminate)) as [H1 [_ H3]].
  split; [exact H1|]. apply H3. discriminate.
Defined.

(* ------------------------------------------------------------------ *)
(** ** Commit override narrowing *)

(** C4: in the override transform, a commit override that differs from
    the base event's [commit_hash] narrows the result to exactly the keys
    [branch], [tag], [commit_hash] (the override) and [base_repository_url],
    carrying the values the earlier steps chose; a commit override equal
    to the base event's [commit_hash] changes nothing, the result being
    the one obtained with no commit override. *)
Theorem commit_override_narrowing s app d bo co :
  let before := override_collapse s app d bo (override_parse bo (override_seed app)) in
  let r := fst (processOverrides s app d bo co []) in
  (truthy_s co = true -> strict_eq (VStr co) (oget d "commit_hash") = false ->
     dom r = list_to_set ["branch"; "tag"; "commit_hash"; "base_repository_url"] /\
     r !! "commit_hash" = Some (VStr co) /\
     get r "branch" = get before "branch" /\ get r "tag" = get before "tag" /\
     get r "base_repository_url" = get before "base_repository_url") /\
  (oget d "commit_hash" = VStr co ->
     r = fst (processOverrides s app d bo "" []) /\ r = before).
Proof.
  intros before r. subst r. rewrite !processOverrides_fst. fold before. split.
  - intros Ht Hne. unfold override_narrow. rewrite Ht, Hne. simpl.
    split; [rewrite !dom_insert_L, dom_singleton_L; set_solver|].
    unfold get at 1 3 5. by simplify_map_eq.
  - intros E. unfold override_narrow. rewrite E. simpl.
    rewrite String.eqb_refl, andb_false_r. done.
Qed.

(** C4 witness: overriding the commit of a push to [main]. *)
Lemma commit_override_narrowing_witness :
  let d := Some (fst (transformBasicEvent (ctx_of "refs/heads/main" push_payload) push_payload [])) in
  dom (fst (processOverrides urlsReferTheSameGitHubRepo_model app_or d "main" "def" [])) =
    list_to_set ["branch"; "tag"; "commit_hash"; "base_repository_url"].
Proof.
  exact (proj1 (proj1 (commit_override_narrowing urlsReferTheSameGitHubRepo_model app_or
    (Some (fst (transformBasicEvent (ctx_of "refs/heads/main" push_payload) push_payload [])))
    "main" "def") eq_refl eq_refl)).
Defined.

(* ------------------------------------------------------------------ *)
(** ** Override precedence *)

Lemma transformBasicEvent_other ctx p k :
  k ∉ basic_keys -> fst (transformBasicEvent ctx p []) !! k = None.
Proof.
  intros H. unfold basic_keys in H. not_in_keys H.
  unfold transformBasicEvent. destruct (deleted p); simpl; [done|].
  destruct (startsWith _ "refs/heads/"); simpl;
    [|destruct (startsWith _ "refs/tags/"); simpl]; by simplify_map_eq.
Qed.

Lemma processOverrides_other s app (d : option obj) bo co k :
  k ∉ basic_keys -> (match d with Some d => d !! k = None | None => True end) ->
  fst (processOverrides s app d bo co []) !! k = None.
Proof.
  intros H Hd. unfold basic_keys in H. not_in_keys H.
  rewrite processOverrides_fst.
  assert (P0 : override_parse bo (override_seed app) !! k = None).
  { unfold override_parse, override_seed.
    destruct (app_repo_url app); repeat case_match; by simplify_map_eq. }
  assert (P1 : override_collapse s app d bo (override_parse bo (override_seed app)) !! k = None).
  { unfold override_collapse. repeat case_match; try done.
    subst. simpl in Hd. apply lookup_union_None. by split. }
  unfold override_narrow. destruct (truthy_s co && _); [|done]. by simplify_map_eq.
Qed.

(** C6: when a branch override or a commit override is given, the
    override transform decides the options even on a pull-request event:
    none of the keys written by the pull-request transform appears, and
    the environments are exactly the passthrough ones (no
    [GITHUB_PR_IS_DRAFT] entry is added). *)
Theorem override_precedence s app inp ctx env :
  truthy_s (in_branch_override inp) || truthy_s (in_commit_override inp) = true ->
  let out := fst (run (createBuildOptions s app inp ctx env)) in
  (forall k, k ∈ pull_request_keys -> out !! k = None) /\
  (selection_ok inp = true ->
     out = with_top_level inp (prepareEnvironmentVariables (in_env_vars inp) env)
             (fst (processOverrides s app
                     (fmap (fun p => fst (transformBasicEvent ctx p [])) (payload ctx))
                     (in_branch_override inp) (in_commit_override inp) [])) /\
     get out "environments" =
       VList (map env_to_value (prepareEnvironmentVariables (in_env_vars inp) env))).
Proof.
  intros Ho out. subst out. rewrite createBuildOptions_fst. cbv zeta. rewrite Ho.
  split.
  - intros k Hk. destruct (selection_ok inp); [|done].
    assert (Hb : k ∉ basic_keys)
      by (unfold pull_request_keys, basic_keys in *; set_solver).
    unfold pull_request_keys in Hk.
    rewrite with_top_level_lookup
      by (intros ->; repeat (apply elem_of_cons in Hk as [Hk|Hk]; [discriminate|]);
          inversion Hk).
    apply processOverrides_other; [done|].
    destruct (payload ctx); simpl; [|done]. by apply transformBasicEvent_other.
  - intros Hs. rewrite Hs. split; [done|].
    unfold with_top_level, get. by simplify_map_eq.
Qed.

(** C6 witness: a branch override on a pull-request event. *)
Lemma override_precedence_witness :
  fst (resolve None (inputs_wf "other" "") (ctx_of "refs/pull/42/merge" (pr_payload (Some true))) [])
    !! "pull_request_id" = None.
Proof.
  apply (proj1 (override_precedence urlsReferTheSameGitHubRepo_model None (inputs_wf "other" "")
           (ctx_of "refs/pull/42/merge" (pr_payload (Some true))) [] eq_refl)).
  unfold pull_request_keys. set_solver.
Defined.

(* ------------------------------------------------------------------ *)
(** ** Collapse to the default options *)

Lemma override_parse_target bo (b : obj) :
  truthy_s bo = true ->
  override_parse bo b = <[ fst (override_target bo) := VStr (snd (override_target bo)) ]> b.
Proof.
  intros H. unfold override_parse, override_target.
  destruct (startsWith bo "refs/heads/"); [done|].
  destruct (startsWith bo "refs/tags/"); [done|]. by rewrite H.
Qed.

Lemma override_target_key bo :
  fst (override_target bo) = "branch" \/ fst (override_target bo) = "tag".
Proof.
  unfold override_target. destruct (startsWith bo "refs/heads/"); [by left|].
  destruct (startsWith bo "refs/tags/"); [by right|by left].
Qed.

Lemma override_target_empty : override_target "" = ("branch", "").
Proof. reflexivity. Qed.

Lemma union_subsumed (d b : obj) :
  (forall i, b !! i <> None -> d !! i <> None) -> d ∪ b = d.
Proof.
  intros H. apply map_eq. intros i. rewrite lookup_union.
  destruct (d !! i) eqn:E1, (b !! i) eqn:E2; simpl; try done.
  exfalso. apply (H i); [by rewrite E2|done].
Qed.

Lemma truthy_s_false (x : string) : truthy_s x = false -> x = "".
Proof. unfold truthy_s. destruct (String.eqb_spec x ""); simpl; congruence. Qed.

(** C3 (amended): with a non-empty branch override resolving to the
    branch or tag of the (non-deleted) base event, a known app repository
    URL that refers to the base event's repository, and no commit override
    that differs from the base commit, the returned options are the full
    base-event result (plus the top-level keys); without a known app
    repository URL the collapse never happens: the override transform
    never carries the base event's commit message, commit messages or
    commit paths. *)
Theorem override_collapse_to_default s app inp ctx p env u k name :
  (selection_ok inp = true -> payload ctx = Some p -> deleted p = false ->
   app_repo_url app = Some u ->
   override_target (in_branch_override inp) = (k, name) -> truthy_s name = true ->
   get (fst (transformBasicEvent ctx p [])) k = VStr name ->
   s u (get (fst (transformBasicEvent ctx p [])) "base_repository_url") = true ->
   (in_commit_override inp = "" \/ in_commit_override inp = ctx_sha ctx) ->
   fst (run (createBuildOptions s app inp ctx env)) =
   with_top_level inp (prepareEnvironmentVariables (in_env_vars inp) env)
     (fst (transformBasicEvent ctx p []))) /\
  (app_repo_url app = None ->
   forall d bo co,
     let r := fst (processOverrides s app d bo co []) in
     r !! "commit_message" = None /\ r !! "commit_messages" = None /\
     r !! "commit_paths" = None).
Proof.
  split.
  - intros Hs Hp Hdel Hu Ht Hn Hk Hsame Hco.
    set (d := fst (transformBasicEvent ctx p [])) in *.
    destruct (transformBasicEvent_keys ctx p Hdel) as [Hch Hbase]. fold d in Hch, Hbase.
    assert (Hbo : truthy_s (in_branch_override inp) = true).
    { destruct (truthy_s (in_branch_override inp)) eqn:E; [done|].
      apply truthy_s_false in E. rewrite E, override_target_empty in Ht.
      injection Ht as _ <-. done. }
    rewrite createBuildOptions_fst, Hs, Hp, Hbo. cbv zeta. simpl. f_equal.
    rewrite processOverrides_fst, (override_parse_target _ _ Hbo), Ht. simpl.
    assert (Hseed : override_seed app = {[ "base_repository_url" := VStr u ]})
      by (unfold override_seed; by rewrite Hu).
    rewrite Hseed.
    assert (Hcol : override_collapse s app (Some d) (in_branch_override inp)
                     (<[k:=VStr name]> {["base_repository_url" := VStr u]}) = d).
    { unfold override_collapse. rewrite Hbo, Hu. simpl. rewrite Hsame.
      assert (Hc : (truthy (get (<[k:=VStr name]> {["base_repository_url" := VStr u]}) "branch") &&
                    strict_eq (get (<[k:=VStr name]> {["base_repository_url" := VStr u]}) "branch")
                      (get d "branch") ||
                    truthy (get (<[k:=VStr name]> {["base_repository_url" := VStr u]}) "tag") &&
                    strict_eq (get (<[k:=VStr name]> {["base_repository_url" := VStr u]}) "tag")
                      (get d "tag")) = true).
      { pose proof (override_target_key (in_branch_override inp)) as Hkey.
        rewrite Ht in Hkey. simpl in Hkey. unfold truthy_s in Hn.
        destruct Hkey as [-> | ->]; rewrite Hk; unfold get; simplify_map_eq; simpl;
          rewrite Hn; simpl; rewrite String.eqb_refl; done. }
      rewrite Hc. apply union_subsumed. intros i Hi.
      destruct (decide (i = k)) as [->|Hik].
      - unfold get in Hk. by destruct (d !! k).
      - rewrite lookup_insert_ne in Hi by done.
        destruct (decide (i = "base_repository_url")) as [->|Hib]; [by rewrite Hbase|].
        by rewrite lookup_singleton_ne in Hi. }
    fold d. rewrite Hcol. unfold override_narrow. simpl.
    unfold get at 1. rewrite Hch.
    destruct Hco as [-> | ->]; [done|]. simpl. rewrite String.eqb_refl, andb_false_r. done.
  - intros Hu d bo co r. subst r. rewrite processOverrides_fst.
    assert (H0 : override_seed app = ∅) by (unfold override_seed; by rewrite Hu).
    assert (H1 : forall b, override_collapse s app d bo b = b)
      by (intros b; unfold override_collapse; rewrite Hu; by destruct (_ && _)).
    rewrite H1, H0. unfold override_narrow.
    destruct (truthy_s co && _); [by simplify_map_eq|].
    unfold override_parse. repeat case_match; by simplify_map_eq.
Qed.

(** C3 witness: the override [main] on a push to [main] of the app's repository. *)
Lemma override_collapse_to_default_witness :
  fst (resolve app_or (inputs_wf "main" "") (ctx_of "refs/heads/main" push_payload) []) =
  with_top_level (inputs_wf "main" "") []
    (fst (transformBasicEvent (ctx_of "refs/heads/main" push_payload) push_payload [])).
Proof.
  apply (proj1 (override_collapse_to_default urlsReferTheSameGitHubRepo_model app_or
           (inputs_wf "main" "") (ctx_of "refs/heads/main" push_payload) push_payload []
           "https://github.com/O/r" "branch" "main"));
    first [reflexivity | vm_compute; reflexivity | left; reflexivity].
Defined.

(** C3 counterexample: the override [main] names the base event's branch
    and the app's repository is the event's, but a commit override [def]
    differs from the base commit: the result is narrowed and carries no
    [commit_messages], which the base-event result has. *)
Lemma override_collapse_counterexample :
  let ctx := ctx_of "refs/heads/main" push_payload in
  let d := fst (transformBasicEvent ctx push_payload []) in
  let out := fst (resolve app_or (inputs_wf "main" "def") ctx []) in
  get d "branch" = VStr "main" /\
  urlsReferTheSameGitHubRepo_model "https://github.com/O/r" (get d "base_repository_url") = true /\
  get d "commit_messages" = VList [VStr "fix"] /\
  get out "commit_messages" = VUndef /\
  out <> with_top_level (inputs_wf "main" "def") [] d.
Proof.
  cbv zeta. split; [vm_compute; reflexivity|].
  split; [vm_compute; reflexivity|]. split; [vm_compute; reflexivity|].
  split; [vm_compute; reflexivity|].
  intros H. apply (f_equal (fun m : gmap string value => m !! "commit_messages")) in H.
  vm_compute in H. discriminate H.
Qed.

(* ------------------------------------------------------------------ *)
(** ** Errors raised inside the transforms *)

(** C1: a deleted-ref payload and a pull request with [mergeable = false]
    record a failure inside a transform, but [createBuildOptions] goes on:
    it still returns options with [workflow_id], [skip_git_status_report]
    and [environments] set (and, with a branch override on a deleted-ref
    payload, a [branch] to build). *)
Theorem transform_errors_do_not_abort :
  let r1 := resolve None (inputs_wf "" "") (ctx_of "refs/heads/main" deleted_payload) [] in
  let r2 := resolve None (inputs_wf "" "") (ctx_of "refs/pull/42/merge" (pr_payload (Some false))) [] in
  let r3 := resolve None (inputs_wf "main" "") (ctx_of "refs/heads/main" deleted_payload) [] in
  In (Failed msg_deleted) (snd r1) /\
  get (fst r1) "workflow_id" = VStr "wf" /\ fst r1 <> ∅ /\
  In (Failed msg_not_mergeable) (snd r2) /\
  get (fst r2) "workflow_id" = VStr "wf" /\ fst r2 <> ∅ /\
  In (Failed msg_deleted) (snd r3) /\ get (fst r3) "branch" = VStr "main".
Proof.
  cbv zeta.
  repeat split; try (vm_compute; left; reflexivity); try (vm_compute; reflexivity);
    intros H; apply (f_equal (fun m : gmap string value => m !! "workflow_id")) in H;
    vm_compute in H; discriminate H.
Qed.

(* ------------------------------------------------------------------ *)
(** ** The log of a run past the selection checks *)

Lemma createBuildOptions_log s app inp ctx env :
  selection_ok inp = true ->
  let ov := (truthy_s (in_branch_override inp) || truthy_s (in_commit_override inp))%bool in
  snd (run (createBuildOptions s app inp ctx env)) =
  ((match payload ctx with
    | Some p => if deleted p then [Failed msg_deleted] else []
    | None => [] end) ++
   (if ov then (if app then [] else [Warning msg_token])
    else match payload ctx ≫= pull_request with
         | Some pr => if bool_decide (mergeable pr = Some false)
                      then [Failed msg_not_mergeable] else []
         | None => match payload ctx with None => [Failed msg_no_payload] | Some _ => [] end
         end) ++
   (if (ov || bool_decide (payload ctx <> None))%bool then
      match app_repo_url app with
      | Some u => if s u (get (fst (run (createBuildOptions s app inp ctx env)))
                               "base_repository_url")
                  then [] else [Warning msg_repo_mismatch]
      | None => []
      end
    else []))%list.
Proof.
  intros Hs ov. rewrite createBuildOptions_fst, Hs. cbv zeta. revert Hs.
  unfold selection_ok, createBuildOptions, run, bind, ret, setFailed, warning.
  subst ov.
  destruct (truthy_s (in_workflow inp)), (truthy_s (in_pipeline inp)), (in_listen inp);
    simpl; intros Hs; try discriminate; clear Hs.
  all: destruct (payload ctx) as [p|]; simpl; [rewrite transformBasicEvent_run; simpl|].
  all: destruct (truthy_s (in_branch_override inp) || truthy_s (in_commit_override inp)); simpl.
  all: try (rewrite processOverrides_run; simpl).
  all: try (destruct (pull_request p) as [pr|]; simpl).
  all: try (rewrite transformPullRequestEvent_run; simpl).
  all: rewrite ?with_top_level_get by done.
  all: destruct (app_repo_url app) as [u|] eqn:Eu; simpl.
  all: try destruct (deleted p); try destruct app; simpl;
       try destruct (bool_decide (mergeable pr = Some false)); simpl;
       try destruct (s u _); simpl; try done.
Qed.

Lemma has_failed_app l1 l2 : has_failed (l1 ++ l2)%list <-> has_failed l1 \/ has_failed l2.
Proof.
  unfold has_failed. split.
  - intros [m H]. apply in_app_iff in H as [H|H]; [left|right]; by exists m.
  - intros [[m H]|[m H]]; exists m; apply in_app_iff; auto.
Qed.

Lemma has_failed_nil : ~ has_failed [].
Proof. by intros [m H]. Qed.

Lemma has_failed_if (b : bool) m : has_failed (if b then [Failed m] else []) <-> b = true.
Proof.
  destruct b; split; intros H; try done.
  - by exists m; left.
  - by apply has_failed_nil in H.
Qed.

Lemma has_failed_warning m : ~ has_failed [Warning m].
Proof. intros [m' [H|H]]; [discriminate|done]. Qed.

Lemma has_failed_mismatch (o : option string) (f : string -> bool) :
  ~ has_failed (match o with
                | Some u => if f u then [] else [Warning msg_repo_mismatch]
                | None => [] end).
Proof.
  destruct o as [u|]; [destruct (f u)|]; [apply has_failed_nil|apply has_failed_warning|
                                           apply has_failed_nil].
Qed.

(** A run that passes the selection checks records a failure exactly when
    the payload is a deleted-ref event, or, with no override, when the
    pull request is not mergeable or there is no payload at all. *)
Theorem createBuildOptions_failures s app inp ctx env :
  selection_ok inp = true ->
  has_failed (snd (run (createBuildOptions s app inp ctx env))) <->
  (exists p, payload ctx = Some p /\ deleted p = true) \/
  (truthy_s (in_branch_override inp) = false /\ truthy_s (in_commit_override inp) = false /\
   ((exists p pr, payload ctx = Some p /\ pull_request p = Some pr /\
                  mergeable pr = Some false) \/
    payload ctx = None)).
Proof.
  intros Hs. rewrite (createBuildOptions_log s app inp ctx env Hs). cbv zeta.
  rewrite !has_failed_app.
  match goal with |- context [has_failed (if ?b then ?l else [])] =>
    assert (HW' : ~ has_failed (if b then l else []))
      by (destruct b; [apply has_failed_mismatch|apply has_failed_nil]) end.
  destruct (payload ctx) as [p|] eqn:Hp; simpl.
  - assert (Hov : forall b : bool, has_failed (if b then (if app then [] else [Warning msg_token])
                                              else match pull_request p with
                                                   | Some pr => if bool_decide (mergeable pr = Some false)
                                                                then [Failed msg_not_mergeable] else []
                                                   | None => [] end) <->
                   b = false /\ exists pr, pull_request p = Some pr /\ mergeable pr = Some false).
    { intros b. destruct b.
      - split; [|intros [? _]; discriminate].
        intros H. exfalso. destruct app; [by apply has_failed_nil in H|by apply has_failed_warning in H].
      - destruct (pull_request p) as [pr|].
        + rewrite has_failed_if, bool_decide_eq_true. split.
          * intros H. split; [done|]. by exists pr.
          * intros [_ [pr' [E H]]]. by injection E as <-.
        + split; [by intros H; apply has_failed_nil in H|intros [_ [pr' [E _]]]; discriminate]. }
    rewrite has_failed_if, Hov. clear Hov.
    destruct (truthy_s (in_branch_override inp)), (truthy_s (in_commit_override inp));
      simpl; naive_solver.
  - split.
    + intros [H|[H|H]]; [by apply has_failed_nil in H| |contradiction].
      right. destruct (truthy_s (in_branch_override inp)), (truthy_s (in_commit_override inp));
        simpl in H; try (destruct app; [by apply has_failed_nil in H|by apply has_failed_warning in H]).
      auto.
    + intros [[p' [E _]]|[H1 [H2 _]]]; [discriminate|].
      rewrite H1, H2. simpl. right. left. by exists msg_no_payload; left.
Qed.

(** Witness: a deleted-ref push fails. *)
Lemma createBuildOptions_failures_witness :
  has_failed (snd (resolve None (inputs_wf "" "") (ctx_of "refs/heads/main" deleted_payload) [])).
Proof.
  apply (createBuildOptions_failures urlsReferTheSameGitHubRepo_model None (inputs_wf "" "")
           (ctx_of "refs/heads/main" deleted_payload) [] eq_refl).
  left. by exists deleted_payload.
Defined.

(** The warning about overrides without app details is recorded exactly
    when an override is given and there are no app details. *)
Theorem createBuildOptions_token_warning s app inp ctx env :
  selection_ok inp = true ->
  In (Warning msg_token) (snd (run (createBuildOptions s app inp ctx env))) <->
  (truthy_s (in_branch_override inp) || truthy_s (in_commit_override inp))%bool = true /\
  app = None.
Proof.
  intros Hs. rewrite (createBuildOptions_log s app inp ctx env Hs). cbv zeta.
  rewrite !in_app_iff.
  destruct (truthy_s (in_branch_override inp) || truthy_s (in_commit_override inp)); simpl.
  all: destruct (payload ctx) as [p|]; simpl; [try destruct (deleted p)|]; simpl.
  all: try destruct (pull_request p); simpl.
  all: try destruct (bool_decide _); simpl.
  all: destruct (app_repo_url app); simpl; try destruct (s _ _); simpl.
  all: try destruct app; simpl.
  all: intuition (try discriminate).
Qed.

(** Witness: a branch override with no app details. *)
Lemma createBuildOptions_token_warning_witness :
  In (Warning msg_token)
     (snd (resolve None (inputs_wf "main" "") (ctx_of "refs/heads/main" push_payload) [])).
Proof.
  apply (createBuildOptions_token_warning urlsReferTheSameGitHubRepo_model None
           (inputs_wf "main" "") (ctx_of "refs/heads/main" push_payload) [] eq_refl).
  split; reflexivity.
Defined.

(** When options were resolved (an override was given or a payload is
    present), the repository-mismatch warning is recorded exactly when the
    app details give a repository URL that does not refer to the
    returned [base_repository_url]. *)
Theorem createBuildOptions_mismatch_warning s app inp ctx env :
  selection_ok inp = true ->
  ((truthy_s (in_branch_override inp) || truthy_s (in_commit_override inp))%bool = true \/
   payload ctx <> None) ->
  let out := run (createBuildOptions s app inp ctx env) in
  In (Warning msg_repo_mismatch) (snd out) <->
  exists u, app_repo_url app = Some u /\ s u (get (fst out) "base_repository_url") = false.
Proof.
  intros Hs Hr out. subst out.
  rewrite (createBuildOptions_log s app inp ctx env Hs). cbv zeta.
  rewrite !in_app_iff.
  assert (Hb : (truthy_s (in_branch_override inp) || truthy_s (in_commit_override inp) ||
                bool_decide (payload ctx <> None))%bool = true).
  { destruct Hr as [-> | H]; [done|]. rewrite orb_true_iff. right. by apply bool_decide_eq_true. }
  rewrite Hb. clear Hb Hr.
  generalize (get (fst (run (createBuildOptions s app inp ctx env))) "base_repository_url").
  intros v.
  destruct (truthy_s (in_branch_override inp) || truthy_s (in_commit_override inp)); simpl.
  all: destruct (payload ctx) as [p|]; simpl; [try destruct (deleted p)|]; simpl.
  all: try destruct (pull_request p); simpl.
  all: try destruct (bool_decide _); simpl.
  all: destruct (app_repo_url app); simpl; try destruct (s _ _) eqn:?; simpl.
  all: try destruct app; simpl.
  all: intuition (try discriminate).
  all: try (destruct H as [u [H1 H2]]; congruence).
  all: eexists; split; [reflexivity|assumption].
Qed.

(** Witness: app details naming another repository. *)
Lemma createBuildOptions_mismatch_warning_witness :
  In (Warning msg_repo_mismatch)
     (snd (resolve (Some {| repo_url := Some "https://github.com/x/y" |}) (inputs_wf "" "")
                   (ctx_of "refs/heads/main" push_payload) [])).
Proof.
  apply (createBuildOptions_mismatch_warning urlsReferTheSameGitHubRepo_model
           (Some {| repo_url := Some "https://github.com/x/y" |}) (inputs_wf "" "")
           (ctx_of "refs/heads/main" push_payload) [] eq_refl ltac:(right; discriminate)).
  exists "https://github.com/x/y". split; [reflexivity|vm_compute; reflexivity].
Defined.

(* ------------------------------------------------------------------ *)
(** ** Further properties of the code *)


(** [listen] with a pipeline (and no workflow) is refused: the result is
    the empty object and the log holds only that error. *)
Theorem createBuildOptions_listen_pipeline s app inp ctx env :
  truthy_s (in_pipeline inp) = true -> truthy_s (in_workflow inp) = false ->
  in_listen inp = true ->
  run (createBuildOptions s app inp ctx env) = (∅, [Failed msg_listen]).
Proof.
  intros Hp Hw Hl.
  assert (Hs : selection_ok inp = false) by (unfold selection_ok; by rewrite Hp, Hw, Hl).
  destruct (selection_failed_log s app inp ctx env Hs) as [H1 H2].
  rewrite Hp, Hw in H2. simpl in H2.
  destruct (run _) as [o l]; simpl in *; by subst.
Qed.

(** Witness: a pipeline with [listen]. *)
Lemma createBuildOptions_listen_pipeline_witness :
  resolve None {| in_workflow := ""; in_pipeline := "pl"; in_listen := true;
                  in_branch_override := ""; in_commit_override := "";
                  in_skip_git_status_report := false; in_env_vars := "" |}
          (ctx_of "refs/heads/main" push_payload) [] = (∅, [Failed msg_listen]).
Proof.
  apply (createBuildOptions_listen_pipeline urlsReferTheSameGitHubRepo_model None
    {| in_workflow := ""; in_pipeline := "pl"; in_listen := true;
       in_branch_override := ""; in_commit_override := "";
       in_skip_git_status_report := false; in_env_vars := "" |}
    (ctx_of "refs/heads/main" push_payload) []); reflexivity.
Defined.


(** Whenever options are produced, [environments] lists the passthrough
    variables, followed by [GITHUB_PR_IS_DRAFT] exactly on the
    pull-request path for a draft pull request (mergeable or not). *)
Theorem createBuildOptions_environments s app inp ctx env :
  selection_ok inp = true ->
  let ov := (truthy_s (in_branch_override inp) || truthy_s (in_commit_override inp))%bool in
  (ov = true \/ payload ctx <> None) ->
  get (fst (run (createBuildOptions s app inp ctx env))) "environments" =
  VList (map env_to_value
    (prepareEnvironmentVariables (in_env_vars inp) env ++
     (if ov then []
      else match payload ctx ≫= pull_request with
           | Some pr => if draft pr then [draft_env] else []
           | None => []
           end))%list).
Proof.
  intros Hs ov Hr. rewrite createBuildOptions_fst, Hs. cbv zeta. subst ov.
  destruct (truthy_s (in_branch_override inp) || truthy_s (in_commit_override inp)).
  - unfold with_top_level, get. simplify_map_eq. by rewrite app_nil_r.
  - destruct Hr as [Hr|Hr]; [discriminate|].
    destruct (payload ctx) as [p|]; [|done]. simpl.
    destruct (pull_request p) as [pr|]; unfold with_top_level, get; simplify_map_eq;
      [destruct (draft pr)|]; by rewrite ?app_nil_r.
Qed.

(** Witness: a push with one passthrough variable. *)
Lemma createBuildOptions_environments_witness :
  get (fst (resolve None (inputs_wf "" "") (ctx_of "refs/heads/main" push_payload)
                    [("A", Some "1")])) "environments" =
  VList (map env_to_value (prepareEnvironmentVariables "" [("A", Some "1")] ++ [])).
Proof.
  pose proof (createBuildOptions_environments urlsReferTheSameGitHubRepo_model None (inputs_wf "" "")
           (ctx_of "refs/heads/main" push_payload) [("A", Some "1")] ltac:(reflexivity)
           ltac:(right; discriminate)) as H.
  vm_compute in H |- *. exact H.
Defined.


(** Without overrides, the failing paths carry no source option: with no
    payload the result is the empty object; an unmergeable pull request
    or a deleted-ref push gives only the top-level keys. *)
Theorem createBuildOptions_failed_paths s app inp ctx env :
  selection_ok inp = true ->
  truthy_s (in_branch_override inp) = false -> truthy_s (in_commit_override inp) = false ->
  let envs := prepareEnvironmentVariables (in_env_vars inp) env in
  let out := fst (run (createBuildOptions s app inp ctx env)) in
  (payload ctx = None -> out = ∅) /\
  (forall p pr, payload ctx = Some p -> pull_request p = Some pr -> mergeable pr = Some false ->
     out = with_top_level inp (if draft pr then (envs ++ [draft_env])%list else envs) ∅) /\
  (forall p, payload ctx = Some p -> pull_request p = None -> deleted p = true ->
     out = with_top_level inp envs ∅).
Proof.
  intros Hs Hb Hc envs out. subst out envs.
  rewrite createBuildOptions_fst, Hs, Hb, Hc. cbv zeta. simpl.
  split; [|split].
  - by intros ->.
  - intros p pr Hp Hpr Hm. rewrite Hp. simpl. rewrite Hpr. f_equal.
    unfold transformPullRequestEvent, bind, ret, setFailed. by rewrite Hm.
  - intros p Hp Hpr Hd. rewrite Hp. simpl. rewrite Hpr. f_equal.
    unfold transformBasicEvent, bind, ret, setFailed. by rewrite Hd.
Qed.

(** Witness: a deleted-ref push. *)
Lemma createBuildOptions_failed_paths_witness :
  fst (resolve None (inputs_wf "" "") (ctx_of "refs/heads/main" deleted_payload) []) =
  with_top_level (inputs_wf "" "") (prepareEnvironmentVariables "" []) ∅.
Proof.
  pose proof (proj2 (proj2 (createBuildOptions_failed_paths urlsReferTheSameGitHubRepo_model None
           (inputs_wf "" "") (ctx_of "refs/heads/main" deleted_payload) [] eq_refl eq_refl eq_refl))
           deleted_payload eq_refl eq_refl eq_refl) as H.
  vm_compute in H |- *. exact H.
Defined.


(** On the pull-request path with a pull request that is not unmergeable,
    the source options come from the pull request: the head's sha and ref,
    the base's ref, the number, the repository URLs of head and base, and
    the title as commit message, followed by a blank line and the body when
    the body is non-empty. *)
Theorem pr_path_fields s app inp ctx p pr env :
  selection_ok inp = true -> payload ctx = Some p -> pull_request p = Some pr ->
  truthy_s (in_branch_override inp) = false -> truthy_s (in_commit_override inp) = false ->
  mergeable pr <> Some false ->
  let out := fst (run (createBuildOptions s app inp ctx env)) in
  get out "commit_hash" = prref_sha (head pr) /\
  get out "commit_message" =
    VStr (match body pr with
          | Some b => if truthy_s b then title pr +:+ nl +:+ nl +:+ b else title pr
          | None => title pr
          end) /\
  get out "branch" = prref_ref (head pr) /\
  get out "branch_dest" = prref_ref (base pr) /\
  get out "pull_request_id" = VNum (Z.of_N (number pr)) /\
  get out "head_repository_url" = getRepositoryURL (prref_repo (head pr)) /\
  get out "pull_request_repository_url" = getRepositoryURL (prref_repo (head pr)) /\
  get out "base_repository_url" = getRepositoryURL (prref_repo (base pr)) /\
  get out "pull_request_head_branch" = VStr ("pull/" +:+ pretty (number pr) +:+ "/head") /\
  get out "pull_request_ready_state" = VStr (getPrReadyState pr).
Proof.
  intros Hs Hp Hpr Hb Hc Hm out. subst out.
  rewrite createBuildOptions_fst, Hs, Hb, Hc, Hp. cbv zeta. simpl. rewrite Hpr.
  rewrite !with_top_level_get by discriminate.
  unfold transformPullRequestEvent, bind, ret, setFailed.
  assert (E : (match mergeable pr with Some _ => true | None => false end &&
               bool_decide (mergeable pr = Some false))%bool = false).
  { destruct (mergeable pr); [|done]. simpl. by apply bool_decide_eq_false. }
  rewrite E. unfold get. simplify_map_eq. repeat split.
Qed.

(** Witness: a mergeable pull request. *)
Lemma pr_path_fields_witness :
  get (fst (resolve None (inputs_wf "" "") (ctx_of "refs/pull/42/merge" (pr_payload (Some true))) []))
      "branch" = VStr "feature".
Proof.
  pose proof (proj1 (proj2 (proj2 (pr_path_fields urlsReferTheSameGitHubRepo_model None (inputs_wf "" "")
           (ctx_of "refs/pull/42/merge" (pr_payload (Some true))) (pr_payload (Some true))
           (pr42 (Some true)) [] eq_refl eq_refl eq_refl eq_refl eq_refl ltac:(discriminate))))) as H.
  vm_compute in H |- *. exact H.
Defined.




Lemma strict_eq_str a v : strict_eq (VStr a) v = true -> v = VStr a.
Proof. destruct v; simpl; try discriminate. intros H. apply String.eqb_eq in H. by subst. Qed.

Lemma get_lookup_str (o : obj) k a : get o k = VStr a -> o !! k = Some (VStr a).
Proof. unfold get. destruct (o !! k); congruence. Qed.

Lemma override_collapse_target s app d bo k name (b : obj) :
  opt_key_excl d -> (k = "branch" \/ k = "tag") ->
  b !! k = Some (VStr name) -> b !! other_key k = None ->
  let c := override_collapse s app d bo b in
  c !! k = Some (VStr name) /\ c !! other_key k = None.
Proof.
  intros Hd Hk Hb Ho c. subst c. unfold override_collapse.
  destruct (truthy_s bo && _) eqn:C; [|done].
  destruct (app_repo_url app); [|done].
  destruct (s _ _); [|done].
  destruct d as [dd|]; [|done]. simpl in *.
  apply andb_prop in C as [_ C].
  assert (Fk : dd !! k = Some (VStr name)).
  { destruct Hk as [-> | ->]; unfold get in C; rewrite Hb in C; unfold other_key in Ho; simpl in Ho; rewrite Ho in C;
      simpl in C; rewrite ?orb_false_r in C; apply andb_prop in C as [_ C];
      apply strict_eq_str in C; by apply get_lookup_str. }
  assert (Fo : dd !! other_key k = None).
  { destruct Hk as [-> | ->]; unfold other_key; simpl; destruct Hd as [H|H]; congruence. }
  split.
  - by apply lookup_union_Some_l.
  - by apply lookup_union_None.
Qed.

Lemma processOverrides_target s app d bo co k name :
  truthy_s bo = true -> opt_key_excl d -> override_target bo = (k, name) ->
  let r := fst (processOverrides s app d bo co []) in
  get r k = VStr name /\ get r (other_key k) = VUndef.
Proof.
  intros Hbo Hd Ht r. subst r. rewrite processOverrides_fst, override_parse_target, Ht by done.
  simpl.
  assert (Hk : k = "branch" \/ k = "tag")
    by (pose proof (override_target_key bo) as H; by rewrite Ht in H).
  destruct (override_seed_keys app) as [S1 S2].
  destruct (override_collapse_target s app d bo k name (<[k:=VStr name]> (override_seed app))) as [C1 C2];
    [done|done|by simplify_map_eq|..].
  { destruct Hk as [-> | ->]; unfold other_key; simpl; by simplify_map_eq. }
  unfold override_narrow. destruct (truthy_s co && _).
  - assert (Hne : other_key k <> k) by (destruct Hk as [-> | ->]; discriminate).
    destruct Hk as [-> | ->]; unfold other_key in *; simpl in *; unfold get; simplify_map_eq; rewrite ?C1, ?C2;
      split; reflexivity.
  - unfold get. by rewrite C1, C2.
Qed.

Lemma event_defaults_excl ctx : opt_key_excl (fmap (fun p => fst (transformBasicEvent ctx p [])) (payload ctx)).
Proof. destruct (payload ctx); simpl; [apply transformBasicEvent_excl|done]. Qed.

Lemma override_path_fst s app inp ctx env :
  selection_ok inp = true ->
  (truthy_s (in_branch_override inp) || truthy_s (in_commit_override inp))%bool = true ->
  fst (run (createBuildOptions s app inp ctx env)) =
  with_top_level inp (prepareEnvironmentVariables (in_env_vars inp) env)
    (fst (processOverrides s app (fmap (fun p => fst (transformBasicEvent ctx p [])) (payload ctx))
            (in_branch_override inp) (in_commit_override inp) [])).
Proof. intros Hs Ho. by rewrite createBuildOptions_fst, Hs, Ho. Qed.

(** With a non-empty branch override resolving to [(k, name)], the result
    has [k] set to [name] and the other of [branch]/[tag] unset, whatever
    the event, the app details and the commit override. *)
Theorem override_target_output s app inp ctx env k name :
  selection_ok inp = true -> truthy_s (in_branch_override inp) = true ->
  override_target (in_branch_override inp) = (k, name) ->
  let out := fst (run (createBuildOptions s app inp ctx env)) in
  get out k = VStr name /\ get out (other_key k) = VUndef.
Proof.
  intros Hs Hb Ht out. subst out. rewrite override_path_fst by (by rewrite ?Hs, ?Hb).
  assert (Hk : k = "branch" \/ k = "tag")
    by (pose proof (override_target_key (in_branch_override inp)) as H; by rewrite Ht in H).
  rewrite !with_top_level_get by (destruct Hk as [-> | ->]; unfold other_key; simpl; discriminate).
  apply processOverrides_target; [done|apply event_defaults_excl|done].
Qed.

(** Witness: a tag override on a branch push. *)
Lemma override_target_output_witness :
  let out := fst (resolve None (inputs_wf "refs/tags/v1" "") (ctx_of "refs/heads/main" push_payload) []) in
  get out "tag" = VStr "v1" /\ get out "branch" = VUndef.
Proof.
  pose proof (override_target_output urlsReferTheSameGitHubRepo_model None (inputs_wf "refs/tags/v1" "")
           (ctx_of "refs/heads/main" push_payload) [] "tag" "v1" eq_refl eq_refl
           ltac:(vm_compute; reflexivity)) as H.
  vm_compute in H |- *. exact H.
Defined.


Lemma processOverrides_base_url s app d bo co :
  let r := fst (processOverrides s app d bo co []) in
  match app_repo_url app with
  | None => get r "base_repository_url" = VUndef
  | Some u => get r "base_repository_url" = VStr u \/
              (get r "base_repository_url" = oget d "base_repository_url" /\
               s u (oget d "base_repository_url") = true)
  end.
Proof.
  cbv zeta. rewrite processOverrides_fst.
  assert (P : get (override_parse bo (override_seed app)) "base_repository_url" =
              match app_repo_url app with Some u => VStr u | None => VUndef end).
  { unfold override_parse, override_seed, get.
    destruct (app_repo_url app); repeat case_match; by simplify_map_eq. }
  assert (N : forall b, get (override_narrow d co b) "base_repository_url" =
                        get b "base_repository_url").
  { intros b. unfold override_narrow. destruct (truthy_s co && _); [|done]. unfold get at 1. by simplify_map_eq. }
  rewrite N. unfold override_collapse.
  destruct (app_repo_url app) as [u|] eqn:Eu.
  - destruct (truthy_s bo && _); [|by left].
    destruct (s u _) eqn:Es; [|by left].
    destruct d as [dd|]; [|by left]. simpl in *.
    unfold get in P, Es |- *. destruct (dd !! "base_repository_url") as [v|] eqn:E.
    + right. by rewrite (lookup_union_Some_l _ _ _ _ E).
    + left. by rewrite (lookup_union_r _ _ _ E).
  - destruct (truthy_s bo && _); done.
Qed.

(** With overrides, [base_repository_url] is [undefined] when the app
    details give no repository URL; otherwise it is that URL, or the base
    event's URL when the comparison judges the two to be the same
    repository. *)
Theorem override_base_repository_url s app inp ctx env :
  selection_ok inp = true ->
  (truthy_s (in_branch_override inp) || truthy_s (in_commit_override inp))%bool = true ->
  let d := fmap (fun p => fst (transformBasicEvent ctx p [])) (payload ctx) in
  let b := get (fst (run (createBuildOptions s app inp ctx env))) "base_repository_url" in
  (app_repo_url app = None -> b = VUndef) /\
  (forall u, app_repo_url app = Some u ->
     b = VStr u \/ (b = oget d "base_repository_url" /\ s u (oget d "base_repository_url") = true)).
Proof.
  intros Hs Ho d b. subst d b. rewrite override_path_fst by done.
  rewrite with_top_level_get by discriminate.
  pose proof (processOverrides_base_url s app
                (fmap (fun p => fst (transformBasicEvent ctx p [])) (payload ctx))
                (in_branch_override inp) (in_commit_override inp)) as H. cbv zeta in H.
  split; [intros E|intros u E]; rewrite E in H; exact H.
Qed.

(** Witness: a branch override without app details. *)
Lemma override_base_repository_url_witness :
  get (fst (resolve None (inputs_wf "main" "") (ctx_of "refs/heads/main" push_payload) []))
      "base_repository_url" = VUndef.
Proof.
  pose proof (proj1 (override_base_repository_url urlsReferTheSameGitHubRepo_model None
           (inputs_wf "main" "") (ctx_of "refs/heads/main" push_payload) [] eq_refl eq_refl) eq_refl) as H.
  vm_compute in H |- *. exact H.
Defined.


(** With overrides and an app repository URL that the comparison accepts
    against itself, the repository-mismatch warning is never recorded. *)
Theorem override_no_mismatch_warning s app inp ctx env u :
  selection_ok inp = true ->
  (truthy_s (in_branch_override inp) || truthy_s (in_commit_override inp))%bool = true ->
  app_repo_url app = Some u -> s u (VStr u) = true ->
  ~ In (Warning msg_repo_mismatch) (snd (run (createBuildOptions s app inp ctx env))).
Proof.
  intros Hs Ho Eu Hu.
  pose proof (processOverrides_base_url s app
                (fmap (fun p => fst (transformBasicEvent ctx p [])) (payload ctx))
                (in_branch_override inp) (in_commit_override inp)) as H. cbv zeta in H.
  rewrite Eu in H.
  assert (Hsame : s u (get (fst (run (createBuildOptions s app inp ctx env))) "base_repository_url") = true).
  { rewrite override_path_fst, with_top_level_get by done.
    destruct H as [-> | [-> H]]; done. }
  rewrite (createBuildOptions_log s app inp ctx env Hs). cbv zeta.
  rewrite Ho, Eu, Hsame. simpl. rewrite !in_app_iff.
  assert (Ha : app <> None) by (intros ->; discriminate).
  destruct app; [|done]. simpl.
  destruct (payload ctx) as [p|]; [destruct (deleted p)|]; simpl; intuition discriminate.
Qed.

(** Witness: a branch override with app details. *)
Lemma override_no_mismatch_warning_witness :
  ~ In (Warning msg_repo_mismatch)
       (snd (resolve app_or (inputs_wf "other" "") (ctx_of "refs/heads/main" push_payload) [])).
Proof.
  pose proof (override_no_mismatch_warning urlsReferTheSameGitHubRepo_model app_or (inputs_wf "other" "")
           (ctx_of "refs/heads/main" push_payload) [] "https://github.com/O/r" eq_refl eq_refl
           eq_refl ltac:(vm_compute; reflexivity)) as H.
  vm_compute in H |- *. exact H.
Defined.


Lemma processOverrides_commit_hash_no_app s app d bo co :
  app_repo_url app = None ->
  fst (processOverrides s app d bo co []) !! "commit_hash" =
  if (truthy_s co && negb (strict_eq (VStr co) (oget d "commit_hash")))%bool
  then Some (VStr co) else None.
Proof.
  intros Eu. rewrite processOverrides_fst. unfold override_narrow.
  destruct (truthy_s co && _); [by simplify_map_eq|].
  unfold override_collapse. rewrite Eu. destruct (truthy_s bo && _);
    unfold override_parse, override_seed; rewrite Eu;
    repeat case_match; by simplify_map_eq.
Qed.

Lemma event_defaults_commit_hash ctx :
  oget (fmap (fun p => fst (transformBasicEvent ctx p [])) (payload ctx)) "commit_hash" =
  match payload ctx with
  | Some p => if deleted p then VUndef else VStr (ctx_sha ctx)
  | None => VUndef
  end.
Proof.
  destruct (payload ctx) as [p|]; simpl; [|done].
  destruct (deleted p) eqn:D.
  - by rewrite transformBasicEvent_deleted.
  - unfold get. by rewrite (proj1 (transformBasicEvent_keys ctx p D)).
Qed.

(** With overrides and no app repository URL, [commit_hash] is present
    only when the commit override is non-empty and differs from the base
    event's sha; a commit override equal to that sha is dropped, leaving
    no [commit_hash] at all. *)
Theorem override_commit_hash_without_app s app inp ctx env :
  selection_ok inp = true ->
  (truthy_s (in_branch_override inp) || truthy_s (in_commit_override inp))%bool = true ->
  app_repo_url app = None ->
  let co := in_commit_override inp in
  fst (run (createBuildOptions s app inp ctx env)) !! "commit_hash" =
  if (truthy_s co &&
      negb (strict_eq (VStr co) (match payload ctx with
                                 | Some p => if deleted p then VUndef else VStr (ctx_sha ctx)
                                 | None => VUndef
                                 end)))%bool
  then Some (VStr co) else None.
Proof.
  intros Hs Ho Eu co. subst co.
  rewrite override_path_fst, with_top_level_lookup by done.
  by rewrite processOverrides_commit_hash_no_app, event_defaults_commit_hash.
Qed.

(** Witness: a commit override equal to the pushed sha. *)
Lemma override_commit_hash_without_app_witness :
  fst (resolve None (inputs_wf "other" "abc") (ctx_of "refs/heads/main" push_payload) [])
    !! "commit_hash" = None.
Proof.
  pose proof (override_commit_hash_without_app urlsReferTheSameGitHubRepo_model None
           (inputs_wf "other" "abc") (ctx_of "refs/heads/main" push_payload) [] eq_refl eq_refl
           eq_refl) as H.
  vm_compute in H |- *. exact H.
Defined.


(** On a push to a branch without overrides, [commit_messages] and
    [commit_paths] follow [payload.commits], or the head commit alone when
    [commits] is absent, or nothing. *)
Theorem push_commit_lists s app inp ctx p env :
  selection_ok inp = true -> payload ctx = Some p -> pull_request p = None ->
  deleted p = false ->
  truthy_s (in_branch_override inp) = false -> truthy_s (in_commit_override inp) = false ->
  startsWith (ctx_ref ctx) "refs/heads/" = true ->
  let cs := match commits p with
            | Some cs => cs
            | None => match head_commit p with Some c => [c] | None => [] end
            end in
  let out := fst (run (createBuildOptions s app inp ctx env)) in
  out !! "commit_messages" = Some (VList (map message cs)) /\
  out !! "commit_paths" = Some (VList (map commit_paths_filter cs)).
Proof.
  intros Hs Hp Hpr Hd Hb Hc Hr cs out. subst cs out.
  rewrite createBuildOptions_fst, Hs, Hb, Hc, Hp. cbv zeta. simpl. rewrite Hpr.
  rewrite !with_top_level_lookup by discriminate.
  unfold transformBasicEvent. rewrite Hd, Hr. simpl. by simplify_map_eq.
Qed.

(** Witness: a push of one commit. *)
Lemma push_commit_lists_witness :
  fst (resolve None (inputs_wf "" "") (ctx_of "refs/heads/main" push_payload) [])
    !! "commit_messages" = Some (VList [VStr "fix"]).
Proof.
  pose proof (proj1 (push_commit_lists urlsReferTheSameGitHubRepo_model None (inputs_wf "" "")
           (ctx_of "refs/heads/main" push_payload) push_payload [] eq_refl eq_refl eq_refl eq_refl
           eq_refl eq_refl eq_refl)) as H.
  vm_compute in H |- *. exact H.
Defined.

















(** On the pull-request path without overrides, the result has no
    [tag], [commit_messages] or [commit_paths]. *)
Theorem pr_path_no_commit_lists s app inp ctx p pr env :
  selection_ok inp = true -> payload ctx = Some p -> pull_request p = Some pr ->
  truthy_s (in_branch_override inp) = false -> truthy_s (in_commit_override inp) = false ->
  let out := fst (run (createBuildOptions s app inp ctx env)) in
  out !! "tag" = None /\ out !! "commit_messages" = None /\ out !! "commit_paths" = None.
Proof.
  intros Hs Hp Hpr Hb Hc out. subst out.
  rewrite createBuildOptions_fst, Hs, Hb, Hc, Hp. cbv zeta. simpl. rewrite Hpr.
  rewrite !with_top_level_lookup by discriminate.
  unfold transformPullRequestEvent, bind, ret, setFailed.
  destruct (mergeable pr) as [[]|]; simpl; by simplify_map_eq.
Qed.

(** Witness: a mergeable pull request. *)
Lemma pr_path_no_commit_lists_witness :
  fst (resolve None (inputs_wf "" "") (ctx_of "refs/pull/42/merge" (pr_payload (Some true))) [])
    !! "commit_paths" = None.
Proof.
  pose proof (proj2 (proj2 (pr_path_no_commit_lists urlsReferTheSameGitHubRepo_model None (inputs_wf "" "")
           (ctx_of "refs/pull/42/merge" (pr_payload (Some true))) (pr_payload (Some true))
           (pr42 (Some true)) [] eq_refl eq_refl eq_refl eq_refl eq_refl))) as H.
  vm_compute in H |- *. exact H.
Defined.
